(** * microfone-app: the waveform renderer and the capture session of [Home]

    A shallow embedding of the React component [Home]
    (revision with the volume and sensitivity sliders, and the earlier
    revision [src/pages/Home/index.tsx]).

    Conventions of the model.
    - A JavaScript number is an exact rational ([Q]); two numbers are compared
      with [==] ([Qeq]).  Rounding of binary64 arithmetic is not part of this
      model; module [Binary64] repeats the loop of [draw] on binary64 numbers
      and runs it on the scenarios.
    - A [Uint8Array] is a [list Z]; its elements are bytes, a fact stated as a
      hypothesis ([bytes]) where a theorem needs it.
    - The 2D context records the path it is given as a [list PathCmd]; stroke
      style, gradient and shadow are constants of the source and are left
      out.
    - Of the device list only the selected device is kept. *)

From Stdlib Require Import QArith Lqa Floats Uint63.
From stdpp Require Import gmap strings list.

Local Open Scope Q_scope.

(** ** The drawing surface *)

Record Canvas := { width : Q; height : Q }.

(** The [<canvas width={300} height={70}>] element rendered by [Home]. *)
Definition home_canvas : Canvas := {| width := 300; height := 70 |}.

(** [ctx.moveTo(x, y)] and [ctx.lineTo(x, y)]. *)
Inductive PathCmd :=
| MoveTo (x y : Q)
| LineTo (x y : Q).

Definition cmd_x (c : PathCmd) : Q :=
  match c with MoveTo x _ | LineTo x _ => x end.

Definition cmd_y (c : PathCmd) : Q :=
  match c with MoveTo _ y | LineTo _ y => y end.

Definition is_move (c : PathCmd) : bool :=
  match c with MoveTo _ _ => true | LineTo _ _ => false end.

(** Two commands of the same kind at equal coordinates. *)
Definition cmd_equiv (a b : PathCmd) : Prop :=
  is_move a = is_move b /\ cmd_x a == cmd_x b /\ cmd_y a == cmd_y b.

Definition cmd_eqb (a b : PathCmd) : bool :=
  Bool.eqb (is_move a) (is_move b) && Qeq_bool (cmd_x a) (cmd_x b)
  && Qeq_bool (cmd_y a) (cmd_y b).

(** ** The body of [draw]: one frame *)

(** [dataArray[i]], for [i] below the length of the array (the loop never
    reads outside of it). *)
Definition sample (dataArray : list Z) (i : nat) : Q :=
  inject_Z (nth i dataArray 0%Z).

Definition bytes (dataArray : list Z) : Prop :=
  Forall (fun b => (0 <= b <= 255)%Z) dataArray.

(** One iteration of [for (let i = 0; i < bufferLength; i++)]: the loop
    carries [x] and the path under construction. *)
Definition draw_iter (cv : Canvas) (dataArray : list Z) (sensitivity sliceWidth : Q)
    (st : Q * list PathCmd) (i : nat) : Q * list PathCmd :=
  let '(x, path) := st in
  let v := sample dataArray i / 128 in
  let y := (v * height cv) / 2 in
  let prevY :=
    if (0 <? i)%nat then ((sample dataArray (i - 1) / 128) * height cv) / 2 else y in
  let smoothedY := prevY + (y - prevY) * sensitivity in
  let path :=
    if (i =? 0)%nat then path ++ [MoveTo x smoothedY] else path ++ [LineTo x smoothedY] in
  (x + sliceWidth, path).

(** The path built between [ctx.beginPath()] and [ctx.stroke()];
    [bufferLength] is the length of [dataArray]. *)
Definition draw_path (cv : Canvas) (dataArray : list Z) (sensitivity : Q) : list PathCmd :=
  let bufferLength := length dataArray in
  let sliceWidth := width cv / inject_Z (Z.of_nat bufferLength) in
  let '(_, path) :=
    fold_left (draw_iter cv dataArray sensitivity sliceWidth) (seq 0 bufferLength) (0, []) in
  path ++ [LineTo (width cv) (height cv / 2)].

(** The earlier revision of the component, [src/pages/Home/index.tsx]: the
    same loop with the constant [smoothness] in place of the slider value
    (and a [nextY] that is computed and never used). *)
Module HomeV1.

Definition smoothness : Q := 0.2.

Definition draw_iter (cv : Canvas) (dataArray : list Z) (bufferLength : nat)
    (sliceWidth : Q) (st : Q * list PathCmd) (i : nat) : Q * list PathCmd :=
  let '(x, path) := st in
  let v := sample dataArray i / 128 in
  let y := (v * height cv) / 2 in
  let prevY :=
    if (0 <? i)%nat then ((sample dataArray (i - 1) / 128) * height cv) / 2 else y in
  let nextY :=
    if (i <? bufferLength - 1)%nat
    then ((sample dataArray (i + 1) / 128) * height cv) / 2 else y in
  let smoothedY := prevY + (y - prevY) * smoothness in
  let path :=
    if (i =? 0)%nat then path ++ [MoveTo x smoothedY] else path ++ [LineTo x smoothedY] in
  (x + sliceWidth, path).

Definition draw_path (cv : Canvas) (dataArray : list Z) : list PathCmd :=
  let bufferLength := length dataArray in
  let sliceWidth := width cv / inject_Z (Z.of_nat bufferLength) in
  let '(_, path) :=
    fold_left (draw_iter cv dataArray bufferLength sliceWidth) (seq 0 bufferLength) (0, []) in
  path ++ [LineTo (width cv) (height cv / 2)].

End HomeV1.

(** The loop of [draw] on binary64 numbers, the numbers of JavaScript. *)
Module Binary64.

Inductive PathCmd :=
| MoveTo (x y : float)
| LineTo (x y : float).

Definition cmd_y (c : PathCmd) : float :=
  match c with MoveTo _ y | LineTo _ y => y end.

(** The number that an integer below [2^63] converts to. *)
Definition number (z : Z) : float := PrimFloat.of_uint63 (Uint63.of_Z z).

Definition sample (dataArray : list Z) (i : nat) : float :=
  number (nth i dataArray 0%Z).

Definition draw_iter (width height : float) (dataArray : list Z)
    (sensitivity sliceWidth : float) (st : float * list PathCmd) (i : nat)
    : float * list PathCmd :=
  let '(x, path) := st in
  let v := (sample dataArray i / 128)%float in
  let y := ((v * height) / 2)%float in
  let prevY :=
    if (0 <? i)%nat
    then (((sample dataArray (i - 1) / 128) * height) / 2)%float else y in
  let smoothedY := (prevY + (y - prevY) * sensitivity)%float in
  let path :=
    if (i =? 0)%nat then path ++ [MoveTo x smoothedY] else path ++ [LineTo x smoothedY] in
  ((x + sliceWidth)%float, path).

Definition draw_path (width height : float) (dataArray : list Z) (sensitivity : float)
    : list PathCmd :=
  let bufferLength := length dataArray in
  let sliceWidth := (width / number (Z.of_nat bufferLength))%float in
  let '(_, path) :=
    fold_left (draw_iter width height dataArray sensitivity sliceWidth)
      (seq 0 bufferLength) (0%float, []) in
  path ++ [LineTo width (height / 2)%float].

(** The binary64 number nearest to [0.2], the initial sensitivity. *)
Definition one_fifth : float := 0x1.999999999999ap-3%float.

End Binary64.

(** ** Names for the quantities of one iteration *)

(** The local [y] of iteration [i]. *)
Definition y_raw (H : Q) (dataArray : list Z) (i : nat) : Q :=
  sample dataArray i / 128 * H / 2.

(** The local [smoothedY] of iteration [i], as the specification words it:
    the previous value is the raw [y] of sample [i - 1], and the raw [y] of
    the sample itself at [i = 0]. *)
Definition y_smoothed_spec (H : Q) (dataArray : list Z) (sensitivity : Q) (i : nat) : Q :=
  let y_smoothed_prev :=
    match i with O => y_raw H dataArray 0 | S j => y_raw H dataArray j end in
  y_smoothed_prev + (y_raw H dataArray i - y_smoothed_prev) * sensitivity.

(** The local [x] at the start of iteration [i]: [sliceWidth] added [i]
    times to [0]. *)
Fixpoint x_at (sliceWidth : Q) (i : nat) : Q :=
  match i with
  | O => 0
  | S k => x_at sliceWidth k + sliceWidth
  end.

(** The command appended by iteration [i]. *)
Definition anchor (H : Q) (dataArray : list Z) (sensitivity sliceWidth : Q) (i : nat) : PathCmd :=
  (if (i =? 0)%nat then MoveTo else LineTo)
    (x_at sliceWidth i) (y_smoothed_spec H dataArray sensitivity i).

(** The path as the specification words it: a move to the first anchor, a
    line to each anchor [(i * (W / N), y_smoothed[i])], [1 <= i < N], and the
    closing line to [(W, H / 2)]. *)
Definition path_spec (cv : Canvas) (dataArray : list Z) (sensitivity : Q) : list PathCmd :=
  let N := length dataArray in
  MoveTo 0 (y_smoothed_spec (height cv) dataArray sensitivity 0)
  :: ((fun i => LineTo (inject_Z (Z.of_nat i) * (width cv / inject_Z (Z.of_nat N)))
                       (y_smoothed_spec (height cv) dataArray sensitivity i))
        <$> seq 1 (N - 1))
  ++ [LineTo (width cv) (height cv / 2)].

(** ** The platform, as the component sees it *)

(** [MediaStreamTrack.readyState]. *)
Inductive TrackState := Live | Ended.

(** A [MediaStream] returned by [getUserMedia]: the [deviceId] constraint it
    was asked with ([None] for [undefined]) and its tracks. *)
Record MediaStream := {
  constraint : option string;
  tracks : list TrackState
}.

(** [AudioContext.state]. *)
Inductive ContextState := Running | Closed.

(** The nodes one call of [startListening] creates in its audio context, and
    the context's destination. *)
Inductive Node := Source | Analyser | Gain | Destination.

(** An [AudioContext] with what [startListening] builds in it: the stream
    behind its [MediaStreamAudioSourceNode], the handle of its [GainNode],
    and the connections made with [connect]. *)
Record AudioContext := {
  ac_state : ContextState;
  ac_source : option nat;
  ac_gain : option nat;
  ac_edges : list (Node * Node)
}.

(** [analyser.fftSize = 2048]. *)
Definition fftSize : nat := 2048.

(** The closure [draw] of one call of [startListening].  It holds what the
    function body refers to: [canvas] with its 2D context ([None] when either
    is null), the analyser (by the handle of its context), the [dataArray]
    allocated by the call, and [sensitivity], a [const] of the render of
    [Home] in which that [startListening] was created. *)
Record DrawClosure := {
  dc_canvas : option Canvas;
  dc_analyser : nat;
  dc_dataArray : list Z;
  dc_sensitivity : Q
}.

(** The values of the [useState] hooks of [Home], which are also what the
    closures of one render capture. *)
Record State := {
  selectedDeviceId : string;
  listening : bool;
  volume : Q;
  sensitivity : Q
}.

(** The [useRef] cells of [Home]. *)
Record Refs := {
  canvasRef : option Canvas;
  audioContextRef : option nat;
  mediaStreamRef : option nat;
  animationRef : nat;
  gainNodeRef : option nat
}.

(** The browser: live objects by handle, the queue of callbacks registered
    with [requestAnimationFrame] (by request id, oldest first), the next
    fresh handle, what is on the canvas, and the error console. *)
Record Platform := {
  streams : gmap nat MediaStream;
  contexts : gmap nat AudioContext;
  gains : gmap nat Q;
  frames : list (nat * DrawClosure);
  next_handle : nat;
  surface : list PathCmd;
  console : list string
}.

(** The whole system; [pending] holds the calls of [startListening] whose
    [await getUserMedia(...)] has not settled, each with the render values
    its closure captured. *)
Record World := {
  state : State;
  refs : Refs;
  platform : Platform;
  pending : list State
}.

(** *** Field updates *)

Definition set_selectedDeviceId (id : string) (s : State) : State :=
  {| selectedDeviceId := id; listening := listening s;
     volume := volume s; sensitivity := sensitivity s |}.

Definition set_listening (b : bool) (s : State) : State :=
  {| selectedDeviceId := selectedDeviceId s; listening := b;
     volume := volume s; sensitivity := sensitivity s |}.

Definition set_volume (v : Q) (s : State) : State :=
  {| selectedDeviceId := selectedDeviceId s; listening := listening s;
     volume := v; sensitivity := sensitivity s |}.

Definition set_sensitivity (x : Q) (s : State) : State :=
  {| selectedDeviceId := selectedDeviceId s; listening := listening s;
     volume := volume s; sensitivity := x |}.

Definition set_audioContextRef (h : option nat) (r : Refs) : Refs :=
  {| canvasRef := canvasRef r; audioContextRef := h;
     mediaStreamRef := mediaStreamRef r; animationRef := animationRef r;
     gainNodeRef := gainNodeRef r |}.

Definition set_mediaStreamRef (h : option nat) (r : Refs) : Refs :=
  {| canvasRef := canvasRef r; audioContextRef := audioContextRef r;
     mediaStreamRef := h; animationRef := animationRef r;
     gainNodeRef := gainNodeRef r |}.

Definition set_animationRef (id : nat) (r : Refs) : Refs :=
  {| canvasRef := canvasRef r; audioContextRef := audioContextRef r;
     mediaStreamRef := mediaStreamRef r; animationRef := id;
     gainNodeRef := gainNodeRef r |}.

Definition set_gainNodeRef (h : option nat) (r : Refs) : Refs :=
  {| canvasRef := canvasRef r; audioContextRef := audioContextRef r;
     mediaStreamRef := mediaStreamRef r; animationRef := animationRef r;
     gainNodeRef := h |}.

Definition set_streams (m : gmap nat MediaStream) (p : Platform) : Platform :=
  {| streams := m; contexts := contexts p; gains := gains p; frames := frames p;
     next_handle := next_handle p; surface := surface p; console := console p |}.

Definition set_contexts (m : gmap nat AudioContext) (p : Platform) : Platform :=
  {| streams := streams p; contexts := m; gains := gains p; frames := frames p;
     next_handle := next_handle p; surface := surface p; console := console p |}.

Definition set_gains (m : gmap nat Q) (p : Platform) : Platform :=
  {| streams := streams p; contexts := contexts p; gains := m; frames := frames p;
     next_handle := next_handle p; surface := surface p; console := console p |}.

Definition set_frames (q : list (nat * DrawClosure)) (p : Platform) : Platform :=
  {| streams := streams p; contexts := contexts p; gains := gains p; frames := q;
     next_handle := next_handle p; surface := surface p; console := console p |}.

Definition set_next_handle (n : nat) (p : Platform) : Platform :=
  {| streams := streams p; contexts := contexts p; gains := gains p; frames := frames p;
     next_handle := n; surface := surface p; console := console p |}.

Definition set_surface (path : list PathCmd) (p : Platform) : Platform :=
  {| streams := streams p; contexts := contexts p; gains := gains p; frames := frames p;
     next_handle := next_handle p; surface := path; console := console p |}.

Definition set_console (l : list string) (p : Platform) : Platform :=
  {| streams := streams p; contexts := contexts p; gains := gains p; frames := frames p;
     next_handle := next_handle p; surface := surface p; console := l |}.

Definition on_state (f : State -> State) (w : World) : World :=
  {| state := f (state w); refs := refs w; platform := platform w; pending := pending w |}.

Definition on_refs (f : Refs -> Refs) (w : World) : World :=
  {| state := state w; refs := f (refs w); platform := platform w; pending := pending w |}.

Definition on_platform (f : Platform -> Platform) (w : World) : World :=
  {| state := state w; refs := refs w; platform := f (platform w); pending := pending w |}.

Definition set_pending (l : list State) (w : World) : World :=
  {| state := state w; refs := refs w; platform := platform w; pending := l |}.

(** *** Statements that may throw

    A computation runs on the world and either returns a value or throws;
    what it did to the world before throwing stays done. *)

Inductive Result (A : Type) :=
| Val (a : A)
| Throw (e : string).
Arguments Val {A} a.
Arguments Throw {A} e.

Definition M (A : Type) : Type := World -> Result A * World.

#[global] Instance M_ret : MRet M := fun A a w => (Val a, w).

#[global] Instance M_bind : MBind M := fun A B k m w =>
  match m w with
  | (Val a, w') => k a w'
  | (Throw e, w') => (Throw e, w')
  end.

Definition gets {A : Type} (f : World -> A) : M A := fun w => (Val (f w), w).

Definition modify (f : World -> World) : M unit := fun w => (Val tt, f w).

Definition throw {A : Type} (e : string) : M A := fun w => (Throw e, w).

(** [try { m } catch (err) { h(err) }]. *)
Definition try_catch (m : M unit) (h : string -> M unit) : M unit := fun w =>
  match m w with
  | (Val a, w') => (Val a, w')
  | (Throw e, w') => h e w'
  end.

(** The world a computation leaves. *)
Definition exec {A : Type} (m : M A) (w : World) : World := snd (m w).

(** *** Calls into the browser *)

(** The calls [startListening] makes that the Web platform lets raise an
    exception (a rejected promise, for [getUserMedia]). *)
Inductive Call :=
| GetUserMedia
| NewAudioContext
| CreateMediaStreamSource
| CreateAnalyser
| CreateGain.

(** What the browser does during one call of [startListening]: which calls
    raise; the number of tracks of the stream it grants; the time-domain
    bytes its analyser holds when [draw] first runs. *)
Record Outcome := {
  raises : Call -> bool;
  granted : nat;
  time_domain : list Z
}.

(** A call into the browser: raises when the outcome says so, and otherwise
    does [m]. *)
Definition call {A : Type} (o : Outcome) (c : Call) (m : M A) : M A :=
  if raises o c then throw "DOMException" else m.

Definition fresh : M nat := fun w =>
  let h := next_handle (platform w) in
  (Val h, on_platform (set_next_handle (S h)) w).

(** [navigator.mediaDevices.getUserMedia({ audio: { deviceId } })]. *)
Definition getUserMedia (o : Outcome) (deviceId : option string) : M nat :=
  call o GetUserMedia (
    h ← fresh;
    modify (on_platform (fun p =>
      set_streams (<[h := {| constraint := deviceId;
                             tracks := replicate (granted o) Live |}]> (streams p)) p));;
    mret h).

(** [new AudioContext()]. *)
Definition newAudioContext (o : Outcome) : M nat :=
  call o NewAudioContext (
    h ← fresh;
    modify (on_platform (fun p =>
      set_contexts (<[h := {| ac_state := Running; ac_source := None;
                              ac_gain := None; ac_edges := [] |}]> (contexts p)) p));;
    mret h).

Definition alter_context (f : AudioContext -> AudioContext) (c : nat) : M unit :=
  modify (on_platform (fun p => set_contexts (alter f c (contexts p)) p)).

(** [audioContext.createMediaStreamSource(stream)]. *)
Definition createMediaStreamSource (o : Outcome) (c stream : nat) : M unit :=
  call o CreateMediaStreamSource (
    alter_context (fun a =>
      {| ac_state := ac_state a; ac_source := Some stream;
         ac_gain := ac_gain a; ac_edges := ac_edges a |}) c).

(** [audioContext.createAnalyser()]; the analyser is named by its context. *)
Definition createAnalyser (o : Outcome) (c : nat) : M nat :=
  call o CreateAnalyser (mret c).

(** [audioContext.createGain()]: a gain node at the default gain [1]. *)
Definition createGain (o : Outcome) (c : nat) : M nat :=
  call o CreateGain (
    g ← fresh;
    modify (on_platform (fun p => set_gains (<[g := 1]> (gains p)) p));;
    alter_context (fun a =>
      {| ac_state := ac_state a; ac_source := ac_source a;
         ac_gain := Some g; ac_edges := ac_edges a |}) c;;
    mret g).

(** [gainNode.gain.value = v]. *)
Definition set_gain_value (g : nat) (v : Q) : M unit :=
  modify (on_platform (fun p => set_gains (<[g := v]> (gains p)) p)).

(** [src.connect(dst)], inside context [c].  Both nodes belong to that
    context and the output and input are the default ones, the case in which
    [connect] does not raise. *)
Definition connect (c : nat) (src dst : Node) : M unit :=
  alter_context (fun a =>
    {| ac_state := ac_state a; ac_source := ac_source a;
       ac_gain := ac_gain a; ac_edges := ac_edges a ++ [(src, dst)] |}) c.

(** [analyser.getByteTimeDomainData(dataArray)]: the analyser's bytes
    overwrite the array from its start, as many as fit. *)
Definition getByteTimeDomainData (samples dataArray : list Z) : list Z :=
  take (length dataArray) samples ++ drop (length samples) dataArray.

(** [requestAnimationFrame(cb)]: queues the callback and returns the id of
    the request. *)
Definition requestAnimationFrame (cb : DrawClosure) : M nat :=
  id ← fresh;
  modify (on_platform (fun p => set_frames (frames p ++ [(id, cb)]) p));;
  mret id.

(** [cancelAnimationFrame(id)]. *)
Definition cancelAnimationFrame (id : nat) : M unit :=
  modify (on_platform (fun p =>
    set_frames (filter (fun r => bool_decide (fst r <> id)) (frames p)) p)).

(** [stream.getTracks().forEach((track) => track.stop())]. *)
Definition stop_tracks (h : nat) : M unit :=
  modify (on_platform (fun p =>
    set_streams (alter (fun s => {| constraint := constraint s;
                                    tracks := map (fun _ => Ended) (tracks s) |})
                       h (streams p)) p)).

(** [audioContext.close()]. *)
Definition close_context (c : nat) : M unit :=
  alter_context (fun a =>
    {| ac_state := Closed; ac_source := ac_source a;
       ac_gain := ac_gain a; ac_edges := ac_edges a |}) c.

(** [console.error(msg, err)]. *)
Definition console_error (msg : string) : M unit :=
  modify (on_platform (fun p => set_console (console p ++ [msg]) p)).

(** ** The component *)

(** One run of the closure [draw] on the bytes the analyser holds. *)
Definition draw (self : DrawClosure) (samples : list Z) : M unit :=
  match dc_canvas self with
  | None => mret tt
  | Some canvas =>
      let dataArray := getByteTimeDomainData samples (dc_dataArray self) in
      modify (on_platform (set_surface []));;
      modify (on_platform (set_surface (draw_path canvas dataArray (dc_sensitivity self))));;
      id ← requestAnimationFrame
             {| dc_canvas := dc_canvas self; dc_analyser := dc_analyser self;
                dc_dataArray := dataArray; dc_sensitivity := dc_sensitivity self |};
      modify (on_refs (set_animationRef id))
  end.

(** The [try] block of [startListening], as created by a render with the
    values [env], run from its first line once [getUserMedia] has settled as
    [o] says. *)
Definition startListening_try (env : State) (o : Outcome) : M unit :=
  stream ← getUserMedia o
             (if String.eqb (selectedDeviceId env) "" then None
              else Some (selectedDeviceId env));
  audioContext ← newAudioContext o;
  createMediaStreamSource o audioContext stream;;
  analyser ← createAnalyser o audioContext;
  gainNode ← createGain o audioContext;
  set_gain_value gainNode (volume env);;
  modify (on_refs (set_gainNodeRef (Some gainNode)));;
  let bufferLength := fftSize in
  let dataArray := replicate bufferLength 0%Z in
  canvas ← gets (fun w => canvasRef (refs w));
  connect audioContext Source Gain;;
  connect audioContext Gain Destination;;
  connect audioContext Source Analyser;;
  draw {| dc_canvas := canvas; dc_analyser := analyser;
          dc_dataArray := dataArray; dc_sensitivity := sensitivity env |}
       (time_domain o);;
  modify (on_refs (set_mediaStreamRef (Some stream)));;
  modify (on_refs (set_audioContextRef (Some audioContext)));;
  modify (on_state (set_listening true)).

Definition startListening (env : State) (o : Outcome) : M unit :=
  try_catch (startListening_try env o)
    (fun err => console_error "Erro ao iniciar escuta:").

Definition stopListening : M unit :=
  stream ← gets (fun w => mediaStreamRef (refs w));
  match stream with
  | Some h => stop_tracks h;; modify (on_refs (set_mediaStreamRef None))
  | None => mret tt
  end;;
  audioContext ← gets (fun w => audioContextRef (refs w));
  match audioContext with
  | Some c => close_context c;; modify (on_refs (set_audioContextRef None))
  | None => mret tt
  end;;
  animation ← gets (fun w => animationRef (refs w));
  (if (animation =? 0)%nat then mret tt else cancelAnimationFrame animation);;
  modify (on_state (set_listening false)).

(** The effect [useEffect(() => { if (gainNodeRef.current) ... }, [volume])],
    run after a render in which [volume] has changed. *)
Definition volume_effect (w : World) : World :=
  match gainNodeRef (refs w) with
  | Some g => exec (set_gain_value g (volume (state w))) w
  | None => w
  end.

(** ** Events *)

Inductive Event :=
| Click
| Settle (o : Outcome)
| AnimationFrame (samples : list Z)
| VolumeChange (v : Q)
| SensitivityChange (s : Q)
| DevicesLoaded (ids : list string)
| DeviceChange (id : string).

(** The browser runs the callbacks that were queued when the frame began;
    what they queue waits for the next frame. *)
Definition run_frame (samples : list Z) (w : World) : World :=
  let queue := frames (platform w) in
  fold_left (fun w cb => exec (draw (snd cb) samples) w) queue
    (on_platform (set_frames []) w).

(** One event, followed by the render it causes.  The handlers are those of
    the last render, which saw the current [state]:
    - the button runs [listening ? stopListening : startListening]; a call
      of [startListening] first waits for [getUserMedia];
    - [Settle] settles the oldest pending [getUserMedia];
    - the sliders call [setVolume] and [setSensitivity];
    - [loadDevices], when the device list arrives, selects its first entry;
    - the select, disabled while [listening], calls [setSelectedDeviceId]. *)
Definition step (w : World) (e : Event) : World :=
  match e with
  | Click =>
      if listening (state w) then exec stopListening w
      else set_pending (pending w ++ [state w]) w
  | Settle o =>
      match pending w with
      | [] => w
      | env :: rest => exec (startListening env o) (set_pending rest w)
      end
  | AnimationFrame samples => run_frame samples w
  | VolumeChange v =>
      if Qeq_bool v (volume (state w)) then w
      else volume_effect (on_state (set_volume v) w)
  | SensitivityChange s => on_state (set_sensitivity s) w
  | DevicesLoaded ids =>
      match ids with
      | [] => w
      | id :: _ => on_state (set_selectedDeviceId id) w
      end
  | DeviceChange id =>
      if listening (state w) then w else on_state (set_selectedDeviceId id) w
  end.

Definition run (w : World) (es : list Event) : World := fold_left step es w.

(** [Home] once mounted: the initial values of its hooks, the canvas behind
    [canvasRef], and a browser holding nothing; handles start at [1]. *)
Definition init : World :=
  {| state := {| selectedDeviceId := ""; listening := false;
                 volume := 1; sensitivity := 0.2 |};
     refs := {| canvasRef := Some home_canvas; audioContextRef := None;
                mediaStreamRef := None; animationRef := 0; gainNodeRef := None |};
     platform := {| streams := ∅; contexts := ∅; gains := ∅; frames := [];
                    next_handle := 1; surface := []; console := [] |};
     pending := [] |}.

(** *** Observations *)

(** A stream with a track that has not been stopped: the device is held. *)
Definition stream_live (w : World) (h : nat) : Prop :=
  exists s, streams (platform w) !! h = Some s /\ Live ∈ tracks s.

Definition context_running (w : World) (c : nat) : Prop :=
  exists a, contexts (platform w) !! c = Some a /\ ac_state a = Running.

(** The gain the audio of the session passes through: the value of the gain
    node of the context behind [audioContextRef]. *)
Definition output_gain (w : World) : option Q :=
  c ← audioContextRef (refs w);
  a ← contexts (platform w) !! c;
  g ← ac_gain a;
  gains (platform w) !! g.

(** The session is idle: no stream, no audio context, no frame requested,
    not listening. *)
Definition idle (w : World) : Prop :=
  mediaStreamRef (refs w) = None /\ audioContextRef (refs w) = None
  /\ frames (platform w) = [] /\ listening (state w) = false.

(** *** Worlds and outcomes used in examples *)

(** [getUserMedia] grants a stream with one audio track; nothing raises; the
    analyser first holds silence. *)
Definition granted_silence : Outcome :=
  {| raises := fun _ => false; granted := 1;
     time_domain := replicate fftSize 128%Z |}.

(** [getUserMedia] rejects: permission denied, or the device is gone. *)
Definition permission_denied : Outcome :=
  {| raises := fun c => match c with GetUserMedia => true | _ => false end;
     granted := 0; time_domain := [] |}.

(** [getUserMedia] grants a stream with one audio track, and then the
    [AudioContext] constructor raises. *)
Definition context_raises : Outcome :=
  {| raises := fun c => match c with NewAudioContext => true | _ => false end;
     granted := 1; time_domain := replicate fftSize 128%Z |}.

(** A full-scale square wave in the analyser. *)
Definition square_wave : list Z :=
  concat (replicate (fftSize / 2) [255; 0]%Z).

(** One click on the button and the start it causes, completed. *)
Definition capturing : World := run init [Click; Settle granted_silence].

(** Two clicks on the button before the first [getUserMedia] settles, then
    both starts completed. *)
Definition started_twice : World :=
  run init [Click; Click; Settle granted_silence; Settle granted_silence].

(** All four handles of the session are cleared. *)
Definition handles_cleared (r : Refs) : Prop :=
  audioContextRef r = None /\ mediaStreamRef r = None
  /\ animationRef r = 0%nat /\ gainNodeRef r = None.

(** Stream [h] is held and the session has no way back to it: its tracks
    are live, [mediaStreamRef] does not refer to it, and its handle is one
    the browser has already handed out. *)
Definition leaked (h : nat) (w : World) : Prop :=
  stream_live w h /\ mediaStreamRef (refs w) <> Some h
  /\ (h < next_handle (platform w))%nat.

(** A capturing session after the sensitivity slider has been moved to [1],
    the volume slider to [0.5], and one more frame has been drawn from a
    square wave. *)
Definition retuned : World :=
  run capturing [SensitivityChange 1; VolumeChange 0.5; AnimationFrame square_wave].

(** ** The device list *)

(** [MediaDeviceInfo.kind]. *)
Inductive DeviceKind := audioinput | audiooutput | videoinput.

(** What [enumerateDevices] reports of a device. *)
Record MediaDeviceInfo := {
  info_deviceId : string;
  info_kind : DeviceKind;
  info_label : string
}.

(** The type [AudioInputDevice] of the component. *)
Record AudioInputDevice := {
  deviceId : string;
  label : string
}.

(** [device.kind === "audioinput"]. *)
Definition is_audioinput (device : MediaDeviceInfo) : bool :=
  match info_kind device with audioinput => true | _ => false end.

(** [allDevices.filter(...).map(...)] of [loadDevices]; an empty label is
    falsy, and is replaced by [`Microfone ${device.deviceId}`]. *)
Definition audioInputs (allDevices : list MediaDeviceInfo) : list AudioInputDevice :=
  map (fun device =>
         {| deviceId := info_deviceId device;
            label := if String.eqb (info_label device) ""
                     then "Microfone " ++ info_deviceId device
                     else info_label device |})
      (List.filter is_audioinput allDevices).

(** [Home] with its [devices] hook beside the rest. *)
Record Home := {
  devices : list AudioInputDevice;
  world : World
}.

(** [loadDevices], the effect run once on mount.  [o] says whether its
    [getUserMedia({ audio: true })] rejects and what stream it grants;
    [enumerated] is the answer of [enumerateDevices], [None] when it
    rejects.  The stream is bound to no name. *)
Definition loadDevices (o : Outcome) (enumerated : option (list MediaDeviceInfo))
    (h : Home) : Home :=
  let catch w :=
    {| devices := devices h;
       world := exec (console_error "Erro ao acessar microfones:") w |} in
  match getUserMedia o None (world h) with
  | (Throw err, w) => catch w
  | (Val _, w) =>
      match enumerated with
      | None => catch w
      | Some allDevices =>
          let audioInputs := audioInputs allDevices in
          {| devices := audioInputs;
             world := match audioInputs with
                      | [] => w
                      | first :: _ => on_state (set_selectedDeviceId (deviceId first)) w
                      end |}
      end
  end.

(** The component when it mounts, before [loadDevices] has run. *)
Definition mounted : Home := {| devices := []; world := init |}.

(** ** The capture session of the earlier revision *)

(** [startListening] of [src/pages/Home/index.tsx]: no gain node, the source
    is connected to the destination directly, and [draw] smooths with the
    constant [smoothness].  The fields of [World] that this revision does not
    have ([volume], [sensitivity], [gainNodeRef], [gains]) are never read or
    written.  Its [stopListening] is, word for word, the [stopListening]
    above. *)
Module HomeV1Session.

Definition draw (self : DrawClosure) (samples : list Z) : M unit :=
  match dc_canvas self with
  | None => mret tt
  | Some canvas =>
      let dataArray := getByteTimeDomainData samples (dc_dataArray self) in
      modify (on_platform (set_surface []));;
      modify (on_platform (set_surface (HomeV1.draw_path canvas dataArray)));;
      id ← requestAnimationFrame
             {| dc_canvas := dc_canvas self; dc_analyser := dc_analyser self;
                dc_dataArray := dataArray; dc_sensitivity := HomeV1.smoothness |};
      modify (on_refs (set_animationRef id))
  end.

Definition startListening_try (env : State) (o : Outcome) : M unit :=
  stream ← getUserMedia o
             (if String.eqb (selectedDeviceId env) "" then None
              else Some (selectedDeviceId env));
  audioContext ← newAudioContext o;
  createMediaStreamSource o audioContext stream;;
  analyser ← createAnalyser o audioContext;
  let bufferLength := fftSize in
  let dataArray := replicate bufferLength 0%Z in
  canvas ← gets (fun w => canvasRef (refs w));
  connect audioContext Source Destination;;
  connect audioContext Source Analyser;;
  draw {| dc_canvas := canvas; dc_analyser := analyser;
          dc_dataArray := dataArray; dc_sensitivity := HomeV1.smoothness |}
       (time_domain o);;
  modify (on_refs (set_mediaStreamRef (Some stream)));;
  modify (on_refs (set_audioContextRef (Some audioContext)));;
  modify (on_state (set_listening true)).

Definition startListening (env : State) (o : Outcome) : M unit :=
  try_catch (startListening_try env o)
    (fun err => console_error "Erro ao iniciar escuta:").

End HomeV1Session.

(** ** Further observations *)

(** No call of [startListening] raises. *)
Definition succeeds (o : Outcome) : Prop := forall c, raises o c = false.

(** The render loop of one session is under way and [animationRef] names its
    pending request: exactly one callback is queued, under the id in
    [animationRef], and it has a canvas to draw on. *)
Definition loop_tracked (w : World) : Prop :=
  exists self canvas,
    frames (platform w) = [(animationRef (refs w), self)]
    /\ dc_canvas self = Some canvas.

(** Nothing is held that was not held in [w0]: every live stream and every
    running context of [w] was live, or running, in [w0]. *)
Definition nothing_acquired (w0 w : World) : Prop :=
  (forall h, stream_live w h -> stream_live w0 h)
  /\ (forall c, context_running w c -> context_running w0 c).

(** The events that neither start nor stop a session: frames, the two
    sliders, and the device list and select. *)
Definition quiet (e : Event) : bool :=
  match e with
  | Click | Settle _ => false
  | _ => true
  end.

(** One session is under way, started from [w0]: the component is
    listening with no start pending; [mediaStreamRef] and [audioContextRef]
    hold a stream and a context, and every other stream and context is as in
    [w0]; and either no frame is requested (there was no canvas), or the loop
    is tracked under a request id that is not [0]. *)
Definition session (w0 w : World) : Prop :=
  listening (state w) = true
  /\ pending w = []
  /\ (exists h c,
        mediaStreamRef (refs w) = Some h /\ audioContextRef (refs w) = Some c
        /\ (forall h', h' <> h ->
              streams (platform w) !! h' = streams (platform w0) !! h')
        /\ (forall c', c' <> c ->
              contexts (platform w) !! c' = contexts (platform w0) !! c'))
  /\ (frames (platform w) = []
      \/ (loop_tracked w /\ animationRef (refs w) <> 0%nat
          /\ next_handle (platform w) <> 0%nat)).

(** The render loop of a session draws on [canvas] with sensitivity [s]:
    the one queued callback, under the id in [animationRef], holds them, and
    its array has [fftSize] bytes. *)
Definition loop_of (canvas : Canvas) (s : Q) (w : World) : Prop :=
  exists self,
    frames (platform w) = [(animationRef (refs w), self)]
    /\ dc_canvas self = Some canvas
    /\ dc_sensitivity self = s
    /\ length (dc_dataArray self) = fftSize.

(** The gain node in [gainNodeRef] is the one of the context in
    [audioContextRef], and its gain is the volume of the component. *)
Definition gain_follows_volume (w : World) : Prop :=
  exists c a g,
    audioContextRef (refs w) = Some c
    /\ contexts (platform w) !! c = Some a
    /\ ac_gain a = Some g
    /\ gainNodeRef (refs w) = Some g
    /\ gains (platform w) !! g = Some (volume (state w)).

(** * The renderer *)

(** ** The loop, unfolded *)

Section Loop.

Variables (cv : Canvas) (dataArray : list Z) (sensitivity sliceWidth : Q).

Lemma draw_iter_anchor (path : list PathCmd) (i : nat) :
  draw_iter cv dataArray sensitivity sliceWidth (x_at sliceWidth i, path) i
  = (x_at sliceWidth (S i),
     path ++ [anchor (height cv) dataArray sensitivity sliceWidth i]).
Proof.
  unfold draw_iter, anchor, y_smoothed_spec, y_raw.
  destruct i as [|j]; simpl; [reflexivity|].
  rewrite Nat.sub_0_r. reflexivity.
Qed.

Lemma draw_loop (n a : nat) (path : list PathCmd) :
  fold_left (draw_iter cv dataArray sensitivity sliceWidth) (seq a n)
    (x_at sliceWidth a, path)
  = (x_at sliceWidth (a + n),
     path ++ (anchor (height cv) dataArray sensitivity sliceWidth <$> seq a n)).
Proof.
  revert a path. induction n as [|n IH]; intros a path; cbn [seq fold_left].
  - rewrite Nat.add_0_r, app_nil_r. reflexivity.
  - rewrite draw_iter_anchor, IH, fmap_cons, <- app_assoc, Nat.add_succ_r.
    reflexivity.
Qed.

End Loop.

Lemma draw_path_anchors (cv : Canvas) (dataArray : list Z) (sensitivity : Q) :
  draw_path cv dataArray sensitivity
  = (anchor (height cv) dataArray sensitivity
       (width cv / inject_Z (Z.of_nat (length dataArray)))
     <$> seq 0 (length dataArray))
    ++ [LineTo (width cv) (height cv / 2)].
Proof.
  unfold draw_path.
  change (0, @nil PathCmd)
    with (x_at (width cv / inject_Z (Z.of_nat (length dataArray))) 0, @nil PathCmd).
  rewrite draw_loop. reflexivity.
Qed.

Lemma draw_path_v1 (cv : Canvas) (dataArray : list Z) :
  HomeV1.draw_path cv dataArray = draw_path cv dataArray HomeV1.smoothness.
Proof. reflexivity. Qed.

Lemma draw_path_length (cv : Canvas) (dataArray : list Z) (sensitivity : Q) :
  length (draw_path cv dataArray sensitivity) = S (length dataArray).
Proof.
  rewrite draw_path_anchors, length_app, length_fmap, length_seq. simpl. lia.
Qed.

Lemma draw_path_lookup (cv : Canvas) (dataArray : list Z) (sensitivity : Q) (i : nat) :
  (i < length dataArray)%nat ->
  draw_path cv dataArray sensitivity !! i
  = Some (anchor (height cv) dataArray sensitivity
            (width cv / inject_Z (Z.of_nat (length dataArray))) i).
Proof.
  intros Hi. rewrite draw_path_anchors, lookup_app_l.
  - rewrite list_lookup_fmap, lookup_seq_lt by assumption. reflexivity.
  - rewrite length_fmap, length_seq. assumption.
Qed.

Lemma draw_path_last (cv : Canvas) (dataArray : list Z) (sensitivity : Q) :
  draw_path cv dataArray sensitivity !! length dataArray
  = Some (LineTo (width cv) (height cv / 2)).
Proof.
  rewrite draw_path_anchors, lookup_app_r; rewrite length_fmap, length_seq; [|lia].
  rewrite Nat.sub_diag. reflexivity.
Qed.

Lemma x_at_linear (sliceWidth : Q) (i : nat) :
  x_at sliceWidth i == inject_Z (Z.of_nat i) * sliceWidth.
Proof.
  induction i as [|i IH].
  - simpl. ring.
  - cbn [x_at]. rewrite IH, Nat2Z.inj_succ. unfold Z.succ.
    rewrite inject_Z_plus. ring.
Qed.

Lemma cmd_y_anchor (H : Q) (dataArray : list Z) (sensitivity sliceWidth : Q) (i : nat) :
  cmd_y (anchor H dataArray sensitivity sliceWidth i)
  = y_smoothed_spec H dataArray sensitivity i.
Proof. unfold anchor. destruct (i =? 0)%nat; reflexivity. Qed.

(** ** Raw and smoothed values *)

Lemma y_smoothed_first (H : Q) (dataArray : list Z) (sensitivity : Q) :
  y_smoothed_spec H dataArray sensitivity 0 == y_raw H dataArray 0.
Proof. unfold y_smoothed_spec. ring. Qed.

Lemma y_raw_scaled (H : Q) (dataArray : list Z) (i : nat) :
  y_raw H dataArray i == sample dataArray i / 128 * (H / 2).
Proof. unfold y_raw. field. Qed.

(** C1: at every index [i] below the length of the buffer, the command the
    loop appends for sample [i] has the ordinate
    [prev + (y_raw i - prev) * sensitivity], where [prev] is the raw [y] of
    sample [i - 1], and of sample [i] itself at [i = 0], so that the first
    ordinate is the raw one; the raw [y] is the sample over [128] times half
    the height.  The earlier revision computes the same with its constant
    [smoothness] as the factor. *)
Theorem draw_smoothing (cv : Canvas) (dataArray : list Z) (sensitivity : Q) (i : nat) :
  (i < length dataArray)%nat ->
  (exists c, draw_path cv dataArray sensitivity !! i = Some c
     /\ cmd_y c = y_smoothed_spec (height cv) dataArray sensitivity i)
  /\ (exists c, HomeV1.draw_path cv dataArray !! i = Some c
     /\ cmd_y c = y_smoothed_spec (height cv) dataArray HomeV1.smoothness i)
  /\ y_smoothed_spec (height cv) dataArray sensitivity 0 == y_raw (height cv) dataArray 0
  /\ y_raw (height cv) dataArray i == sample dataArray i / 128 * (height cv / 2).
Proof.
  intros Hi. repeat split.
  - eexists. split; [apply draw_path_lookup, Hi | apply cmd_y_anchor].
  - eexists. rewrite draw_path_v1.
    split; [apply draw_path_lookup, Hi | apply cmd_y_anchor].
  - apply y_smoothed_first.
  - apply y_raw_scaled.
Qed.

Lemma draw_smoothing_witness :
  (exists c, draw_path home_canvas [255; 0; 255; 0]%Z 0.2 !! 1%nat = Some c
     /\ cmd_y c = y_smoothed_spec 70 [255; 0; 255; 0]%Z 0.2 1)
  /\ (exists c, HomeV1.draw_path home_canvas [255; 0; 255; 0]%Z !! 1%nat = Some c
     /\ cmd_y c = y_smoothed_spec 70 [255; 0; 255; 0]%Z HomeV1.smoothness 1)
  /\ y_smoothed_spec 70 [255; 0; 255; 0]%Z 0.2 0 == y_raw 70 [255; 0; 255; 0]%Z 0
  /\ y_raw 70 [255; 0; 255; 0]%Z 1 == sample [255; 0; 255; 0]%Z 1 / 128 * (70 / 2).
Proof. apply (draw_smoothing home_canvas [255; 0; 255; 0]%Z 0.2 1). simpl. lia. Defined.

(** ** The shape of the path *)

Lemma cmd_equiv_refl (c : PathCmd) : cmd_equiv c c.
Proof. repeat split; reflexivity. Qed.

Lemma cmd_eqb_equiv (a b : PathCmd) : cmd_eqb a b = true <-> cmd_equiv a b.
Proof.
  unfold cmd_eqb, cmd_equiv.
  rewrite !andb_true_iff, !Qeq_bool_iff, Bool.eqb_true_iff. tauto.
Qed.

Lemma anchor_equiv_line (cv : Canvas) (dataArray : list Z) (sensitivity : Q) (i : nat) :
  (0 < i)%nat ->
  cmd_equiv
    (anchor (height cv) dataArray sensitivity
       (width cv / inject_Z (Z.of_nat (length dataArray))) i)
    (LineTo (inject_Z (Z.of_nat i) * (width cv / inject_Z (Z.of_nat (length dataArray))))
            (y_smoothed_spec (height cv) dataArray sensitivity i)).
Proof.
  intros Hi. unfold anchor.
  destruct (Nat.eqb_spec i 0) as [->|_]; [lia|].
  split; [reflexivity | split; simpl; [apply x_at_linear | reflexivity]].
Qed.

(** C2: the path of one frame has one command more than the buffer has
    samples; for a buffer of [N >= 1] samples it is a move to
    [(0, y_smoothed 0)], a line to [(i * (W / N), y_smoothed i)] for each
    [i] from [1] to [N - 1], and a closing line to [(W, H / 2)]. *)
Theorem draw_path_segments (cv : Canvas) (dataArray : list Z) (sensitivity : Q) :
  length (draw_path cv dataArray sensitivity) = S (length dataArray)
  /\ (dataArray <> [] ->
      Forall2 cmd_equiv (draw_path cv dataArray sensitivity)
                        (path_spec cv dataArray sensitivity)).
Proof.
  split; [apply draw_path_length|].
  intros Hne. rewrite draw_path_anchors. unfold path_spec.
  destruct dataArray as [|b rest]; [congruence|].
  cbn [length Nat.sub seq]. rewrite Nat.sub_0_r, fmap_cons.
  constructor; [apply cmd_equiv_refl|].
  apply Forall2_app; [|constructor; [apply cmd_equiv_refl | constructor]].
  apply Forall2_fmap, Forall2_same_length_lookup_2; [reflexivity|].
  intros i x y Hx Hy. rewrite Hx in Hy. injection Hy as <-.
  apply lookup_seq in Hx as [-> _].
  apply (anchor_equiv_line cv (b :: rest)). lia.
Qed.

Lemma draw_path_segments_witness :
  length (draw_path home_canvas [255; 0; 255; 0]%Z 0.2) = 5%nat
  /\ Forall2 cmd_equiv (draw_path home_canvas [255; 0; 255; 0]%Z 0.2)
                       (path_spec home_canvas [255; 0; 255; 0]%Z 0.2).
Proof.
  split.
  - apply (draw_path_segments home_canvas [255; 0; 255; 0]%Z 0.2).
  - apply (draw_path_segments home_canvas [255; 0; 255; 0]%Z 0.2). discriminate.
Defined.

(** ** The two scenarios *)

(** C3, as stated, fails: for the silent buffer on the canvas of height
    [70], the raw [y] and the ordinate of the first anchor are not [0]. *)
Lemma silence_y_not_zero :
  ~ (forall (s : Q) (i : nat) (c : PathCmd),
       (i < 4)%nat ->
       draw_path home_canvas [128; 128; 128; 128]%Z s !! i = Some c ->
       y_raw 70 [128; 128; 128; 128]%Z i == 0 /\ cmd_y c == 0).
Proof.
  intros H.
  destruct (H 0.2 0%nat _ ltac:(lia) eq_refl) as [Hraw _].
  vm_compute in Hraw. discriminate.
Qed.

(** C3, amended: for the silent buffer [[128,128,128,128]] and height [70],
    every raw [y] is [35], half the height, and so is the ordinate of every
    command of the path, whatever the sensitivity (and the width): the trace
    is the horizontal line at [H / 2]. *)
Theorem silence_flat (W s : Q) :
  Forall (fun i => y_raw 70 [128; 128; 128; 128]%Z i == 35) (seq 0 4)
  /\ Forall (fun c => cmd_y c == 70 / 2)
       (draw_path {| width := W; height := 70 |} [128; 128; 128; 128]%Z s).
Proof.
  split.
  - repeat constructor; vm_compute; reflexivity.
  - rewrite draw_path_anchors.
    repeat constructor; cbn [cmd_y anchor Nat.eqb height];
      unfold y_smoothed_spec, y_raw, sample; cbn [nth]; field.
Qed.

(** C4, as stated, fails: on the canvas of height [70] the raw values of
    [[255,0,255,0]] are not [[35, -35, 35, -35]]. *)
Lemma square_wave_not_centered :
  ~ Forall2 Qeq (y_raw 70 [255; 0; 255; 0]%Z <$> seq 0 4)
                [70 / 2; - (70 / 2); 70 / 2; - (70 / 2)].
Proof.
  intros H. apply Forall2_cons_1 in H as [H _].
  vm_compute in H. discriminate.
Qed.

(** C4, amended: for the buffer [[255,0,255,0]] the raw values are
    [[(255/128) * H/2, 0, (255/128) * H/2, 0]], and at sensitivity [1] the
    ordinates of the four anchors are these raw values, one for one. *)
Theorem square_wave_reproduced (cv : Canvas) :
  Forall2 Qeq (y_raw (height cv) [255; 0; 255; 0]%Z <$> seq 0 4)
    [255 / 128 * (height cv / 2); 0; 255 / 128 * (height cv / 2); 0]
  /\ Forall2 Qeq (cmd_y <$> take 4 (draw_path cv [255; 0; 255; 0]%Z 1))
       (y_raw (height cv) [255; 0; 255; 0]%Z <$> seq 0 4).
Proof.
  split.
  - repeat constructor; unfold y_raw, sample; cbn [nth]; field.
  - rewrite draw_path_anchors.
    repeat constructor; cbn [cmd_y anchor Nat.eqb];
      unfold y_smoothed_spec, y_raw, sample; cbn [nth]; field.
Qed.

(** When the sensitivity is [1] the smoothed value is the raw one, and when
    it is [0] it is the raw value of the sample before. *)
Lemma y_smoothed_full (H : Q) (dataArray : list Z) (i : nat) :
  y_smoothed_spec H dataArray 1 i == y_raw H dataArray i.
Proof. unfold y_smoothed_spec. ring. Qed.

Lemma y_smoothed_lag (H : Q) (dataArray : list Z) (i : nat) :
  y_smoothed_spec H dataArray 0 (S i) == y_raw H dataArray i.
Proof. unfold y_smoothed_spec. ring. Qed.

(** ** Vertical bounds *)

Lemma sample_bounds (dataArray : list Z) (i : nat) :
  bytes dataArray -> 0 <= sample dataArray i <= 255.
Proof.
  intros Hb. unfold sample.
  assert (0 <= nth i dataArray 0 <= 255)%Z as [Hlo Hhi].
  { destruct (nth_in_or_default i dataArray 0%Z) as [Hin | ->]; [|lia].
    unfold bytes in Hb. rewrite List.Forall_forall in Hb. apply Hb, Hin. }
  split; [change 0 with (inject_Z 0) | change 255 with (inject_Z 255)];
    rewrite <- Zle_Qle; assumption.
Qed.

Lemma y_raw_bounds (H : Q) (dataArray : list Z) (i : nat) :
  0 <= H -> bytes dataArray ->
  0 <= y_raw H dataArray i <= 255 / 128 * (H / 2).
Proof.
  intros HH Hb. destruct (sample_bounds dataArray i Hb) as [Hlo Hhi].
  unfold y_raw. set (b := sample dataArray i) in *.
  assert (0 <= b * H) by nra.
  assert (b * H <= 255 * H) by nra.
  assert (b / 128 * H / 2 == b * H * (1 # 256)) as -> by field.
  assert (255 / 128 * (H / 2) == 255 * H * (1 # 256)) as -> by field.
  split; lra.
Qed.

Lemma lerp_bounds (lo hi a b s : Q) :
  0 <= s <= 1 -> lo <= a <= hi -> lo <= b <= hi ->
  lo <= a + (b - a) * s <= hi.
Proof. intros [? ?] [? ?] [? ?]. split; nra. Qed.

Lemma y_smoothed_bounds (H : Q) (dataArray : list Z) (s : Q) (i : nat) :
  0 <= H -> bytes dataArray -> 0 <= s <= 1 ->
  0 <= y_smoothed_spec H dataArray s i <= 255 / 128 * (H / 2).
Proof.
  intros HH Hb Hs. unfold y_smoothed_spec.
  apply lerp_bounds; [assumption| |apply y_raw_bounds; assumption].
  destruct i; apply y_raw_bounds; assumption.
Qed.

Lemma half_height_bounds (H : Q) :
  0 < H -> 0 <= H / 2 <= 255 / 128 * (H / 2) /\ 255 / 128 * (H / 2) < H.
Proof.
  intros HH.
  assert (255 / 128 * (H / 2) == H * (255 # 256)) as -> by field.
  assert (H / 2 == H * (1 # 2)) as -> by field.
  repeat split; lra.
Qed.

(** C10: for a buffer of bytes, a sensitivity in [[0,1]] and a canvas of
    positive height [H], the ordinate of every command of the path (every
    [smoothedY], and the closing [H / 2]) lies in
    [[0, (255/128) * (H/2)]], which is below [H]. *)
Theorem draw_path_in_bounds (cv : Canvas) (dataArray : list Z) (s : Q) :
  0 < height cv -> bytes dataArray -> 0 <= s <= 1 ->
  Forall (fun c => 0 <= cmd_y c <= 255 / 128 * (height cv / 2))
         (draw_path cv dataArray s)
  /\ 255 / 128 * (height cv / 2) < height cv.
Proof.
  intros HH Hb Hs. destruct (half_height_bounds _ HH) as [Hhalf Hlt].
  split; [|exact Hlt].
  rewrite draw_path_anchors. apply Forall_app. split.
  - apply Forall_fmap, Forall_forall. intros i _. cbn [compose].
    rewrite cmd_y_anchor. apply y_smoothed_bounds; [lra | assumption..].
  - repeat constructor; apply Hhalf.
Qed.

Lemma draw_path_in_bounds_witness :
  Forall (fun c => 0 <= cmd_y c <= 255 / 128 * (70 / 2))
         (draw_path home_canvas [255; 0; 255; 0]%Z 0.2)
  /\ 255 / 128 * (70 / 2) < 70.
Proof.
  apply (draw_path_in_bounds home_canvas [255; 0; 255; 0]%Z 0.2).
  - reflexivity.
  - repeat constructor; lia.
  - split; discriminate.
Defined.

(** * The capture session *)

Ltac m_unfold :=
  cbv [exec mbind M_bind mret M_ret gets modify throw try_catch call fresh
       getUserMedia newAudioContext createMediaStreamSource createAnalyser createGain
       set_gain_value connect requestAnimationFrame cancelAnimationFrame stop_tracks
       close_context alter_context console_error draw].

Ltac m_simpl := m_unfold; cbn -[draw_path replicate fftSize getByteTimeDomainData].

(** ** [stopListening] *)

(** C9: [stopListening] on an idle session (no stream handle, no audio
    context handle, no frame requested, not listening) returns without an
    exception and leaves the whole world as it was. *)
Theorem stop_idle (w : World) : idle w -> stopListening w = (Val tt, w).
Proof.
  destruct w as [[id l v s] [cv ac ms an gn] [st cx gs fr nh sf co] pend].
  unfold idle. simpl. intros (-> & -> & -> & ->).
  unfold stopListening. m_simpl.
  destruct an; reflexivity.
Qed.

Lemma stop_idle_witness : stopListening init = (Val tt, init).
Proof. apply (stop_idle init). repeat split. Defined.

Lemma ended_not_live (l : list TrackState) : Live ∉ map (fun _ => Ended) l.
Proof.
  induction l as [|t l IH]; simpl; [apply not_elem_of_nil|].
  rewrite not_elem_of_cons. split; [discriminate | exact IH].
Qed.

Lemma stopped_not_live (m : gmap nat MediaStream) (h : nat) (s : MediaStream) :
  alter (fun s => {| constraint := constraint s;
                     tracks := map (fun _ => Ended) (tracks s) |}) h m !! h = Some s ->
  Live ∉ tracks s.
Proof.
  rewrite lookup_alter_eq. destruct (m !! h) as [s0|]; simpl; [|discriminate].
  intros [= <-]. apply ended_not_live.
Qed.

Lemma closed_not_running (m : gmap nat AudioContext) (c : nat) (a : AudioContext) :
  alter (fun a => {| ac_state := Closed; ac_source := ac_source a;
                     ac_gain := ac_gain a; ac_edges := ac_edges a |}) c m !! c = Some a ->
  ac_state a <> Running.
Proof.
  rewrite lookup_alter_eq. destruct (m !! c) as [a0|]; simpl; [|discriminate].
  intros [= <-]. discriminate.
Qed.

Lemma cancelled_not_queued (q : list (nat * DrawClosure)) (id : nat) :
  id ∉ (filter (fun r => bool_decide (fst r <> id)) q).*1.
Proof.
  intros Hin. apply list_elem_of_fmap in Hin as ([id' dc] & -> & Hin).
  apply list_elem_of_filter in Hin as [Hne _]. simpl in Hne.
  apply bool_decide_unpack in Hne. congruence.
Qed.

(** The request id and the gain node handle are not touched. *)
Lemma stop_keeps_animation_and_gain (w : World) :
  animationRef (refs (exec stopListening w)) = animationRef (refs w)
  /\ gainNodeRef (refs (exec stopListening w)) = gainNodeRef (refs w).
Proof.
  destruct w as [[id l v s] [cv ac ms an gn] [st cx gs fr nh sf co] pend].
  unfold stopListening. m_simpl.
  destruct ms, ac, an; split; reflexivity.
Qed.

(** C7, as stated, fails: after [stopListening] on a capturing session the
    request id in [animationRef] and the handle in [gainNodeRef] are still
    there. *)
Lemma stop_keeps_two_handles :
  ~ handles_cleared (refs (exec stopListening capturing)).
Proof. intros (_ & _ & Hanim & _). discriminate Hanim. Qed.

(** C7, amended: [stopListening] never throws and, each under its own guard
    and whatever the other handles hold, stops every track of the stream in
    [mediaStreamRef], closes the context in [audioContextRef], and cancels
    the request whose id is in [animationRef] when that id is not [0]; it
    clears [mediaStreamRef] and [audioContextRef] and sets [listening] to
    false. *)
Theorem stop_teardown (w : World) :
  fst (stopListening w) = Val tt
  /\ (forall h, mediaStreamRef (refs w) = Some h ->
      ~ stream_live (exec stopListening w) h)
  /\ (forall c, audioContextRef (refs w) = Some c ->
      ~ context_running (exec stopListening w) c)
  /\ (animationRef (refs w) <> 0%nat ->
      animationRef (refs w) ∉ (frames (platform (exec stopListening w))).*1)
  /\ mediaStreamRef (refs (exec stopListening w)) = None
  /\ audioContextRef (refs (exec stopListening w)) = None
  /\ listening (state (exec stopListening w)) = false.
Proof.
  destruct w as [[id l v s] [cv ac ms an gn] [st cx gs fr nh sf co] pend].
  unfold stream_live, context_running, stopListening. m_simpl.
  destruct ms as [h|], ac as [c|], an as [|an]; simpl;
    (split; [reflexivity|]);
    (split; [intros h' [= <-] (s' & Hs & Hlive);
             apply stopped_not_live in Hs; contradiction
            | try (intros ? [=])]).
  all: (split; [intros c' [= <-] (a & Ha & Hrun);
                apply closed_not_running in Ha; contradiction
               | try (intros ? [=])]).
  all: split; [first [congruence | intros _; apply cancelled_not_queued]
              | repeat split].
Qed.

(** ** A start that fails *)

(** What a throwing [try] block leaves behind: every call that can raise
    comes before the first assignment to a ref. *)
Lemma start_try_throw (env : State) (o : Outcome) (w w' : World) (e : string) :
  startListening_try env o w = (Throw e, w') ->
  state w' = state w
  /\ refs w' = refs w
  /\ pending w' = pending w
  /\ console (platform w') = console (platform w)
  /\ frames (platform w') = frames (platform w)
  /\ gains (platform w') = gains (platform w)
  /\ surface (platform w') = surface (platform w).
Proof.
  destruct w as [[id l v s] [cv ac ms an gn] [st cx gs fr nh sf co] pend].
  unfold startListening_try. m_unfold.
  repeat lazymatch goal with
  | |- context [if raises o ?c then _ else _] =>
      destruct (raises o c) eqn:?; [ intros [= <- <-]; cbn; repeat split | ]
  end.
  destruct cv; cbn -[draw_path replicate fftSize getByteTimeDomainData]; discriminate.
Qed.

(** C6: when [startListening] fails, at whichever of its calls, the
    exception is caught and the failure is only logged: one diagnostic is
    written to the console, and the values of the hooks (so [listening]),
    every ref (the stream handle, the audio context handle, the gain node
    handle, the id of the pending frame), the queue of frame requests, the
    gain nodes and the picture are what they were before the attempt.  An
    idle session stays idle. *)
Theorem start_failure (env : State) (o : Outcome) (w : World) (e : string) :
  fst (startListening_try env o w) = Throw e ->
  fst (startListening env o w) = Val tt
  /\ console (platform (exec (startListening env o) w))
     = console (platform w) ++ ["Erro ao iniciar escuta:"]
  /\ state (exec (startListening env o) w) = state w
  /\ refs (exec (startListening env o) w) = refs w
  /\ pending (exec (startListening env o) w) = pending w
  /\ frames (platform (exec (startListening env o) w)) = frames (platform w)
  /\ gains (platform (exec (startListening env o) w)) = gains (platform w)
  /\ surface (platform (exec (startListening env o) w)) = surface (platform w)
  /\ (idle w -> idle (exec (startListening env o) w)).
Proof.
  unfold idle, startListening, try_catch, exec.
  destruct (startListening_try env o w) as [[a|e'] w'] eqn:Htry; [discriminate|].
  intros _.
  apply start_try_throw in Htry as (Hst & Hrefs & Hpend & Hco & Hfr & Hgains & Hsf).
  cbn. rewrite Hst, Hrefs, Hpend, Hco, Hfr, Hgains, Hsf. repeat split; tauto.
Qed.

(** A click answered by a rejection of [getUserMedia] leaves the mounted
    component as it was, with one line more on the console. *)
Example start_denied :
  run init [Click; Settle permission_denied]
  = on_platform (set_console ["Erro ao iniciar escuta:"]) init.
Proof. reflexivity. Qed.

(** The same when the stream is granted and the [AudioContext] constructor
    then raises. *)
Example start_context_raises :
  refs (run init [Click; Settle context_raises]) = refs init
  /\ state (run init [Click; Settle context_raises]) = state init
  /\ console (platform (run init [Click; Settle context_raises]))
     = ["Erro ao iniciar escuta:"].
Proof. repeat split. Qed.

Lemma start_failure_witness :
  console (platform (run init [Click; Settle permission_denied]))
  = ["Erro ao iniciar escuta:"]
  /\ refs (run init [Click; Settle permission_denied]) = refs init
  /\ idle (run init [Click; Settle permission_denied]).
Proof.
  destruct (start_failure (state init) permission_denied
              (set_pending [] (step init Click)) "DOMException" eq_refl)
    as (_ & Hlog & _ & Hrefs & _ & _ & _ & _ & Hidle).
  split; [exact Hlog | split; [exact Hrefs | apply Hidle; repeat split]].
Defined.

(** ** A second start before the first has settled *)

Lemma leaked_draw (h : nat) (self : DrawClosure) (samples : list Z) (w : World) :
  leaked h w -> leaked h (exec (draw self samples) w).
Proof.
  destruct w as [[id l v s] [cv ac ms an gn] [st cx gs fr nh sf co] pend].
  unfold leaked, stream_live. m_unfold.
  destruct (dc_canvas self); cbn -[draw_path getByteTimeDomainData];
    intros (Hlive & Hne & Hlt); repeat split; (assumption || lia).
Qed.

Lemma leaked_run_frame (h : nat) (samples : list Z) (w : World) :
  leaked h w -> leaked h (run_frame samples w).
Proof.
  unfold run_frame. generalize (frames (platform w)) as queue. intros queue Hw.
  assert (leaked h (on_platform (set_frames []) w)) as Hw' by exact Hw.
  revert Hw'. generalize (on_platform (set_frames []) w). clear Hw.
  induction queue as [|cb queue IH]; intros w0 Hw0; cbn [fold_left]; [exact Hw0|].
  apply IH, leaked_draw, Hw0.
Qed.

Lemma leaked_stop (h : nat) (w : World) :
  leaked h w -> leaked h (exec stopListening w).
Proof.
  destruct w as [[id l v s] [cv ac ms an gn] [st cx gs fr nh sf co] pend].
  unfold leaked, stream_live, stopListening. m_simpl.
  intros ((x & Hx & Hlive) & Hne & Hlt).
  destruct ms as [h'|], ac as [c|], an as [|an]; cbn;
    (split; [exists x; split; [|exact Hlive] | split; [discriminate | exact Hlt]]);
    try exact Hx.
  all: rewrite lookup_alter_ne by congruence; exact Hx.
Qed.

Lemma leaked_start_try (h : nat) (env : State) (o : Outcome) (w : World) :
  leaked h w -> leaked h (snd (startListening_try env o w)).
Proof.
  destruct w as [[id l v s] [cv ac ms an gn] [st cx gs fr nh sf co] pend].
  unfold leaked, stream_live, startListening_try. m_unfold.
  intros ((x & Hx & Hlive) & Hne & Hlt). cbn in Hx, Hne, Hlt.
  assert (forall y, <[nh := y]> st !! h = Some x) as Hfresh
    by (intros y; rewrite lookup_insert_ne by lia; exact Hx).
  repeat lazymatch goal with
  | |- context [raises o ?c] =>
      destruct (raises o c) eqn:?;
      [ cbn; split; [exists x; split; [first [exact Hx | apply Hfresh] | exact Hlive]
                    | split; [exact Hne | lia]] | ]
  end.
  destruct cv; cbn -[draw_path replicate fftSize getByteTimeDomainData];
    (split; [exists x; split; [apply Hfresh | exact Hlive]
            | split; [intros [= ->]; lia | lia]]).
Qed.

Lemma leaked_start (h : nat) (env : State) (o : Outcome) (w : World) :
  leaked h w -> leaked h (exec (startListening env o) w).
Proof.
  intros Hw. apply (leaked_start_try h env o) in Hw.
  unfold startListening, try_catch, exec.
  destruct (startListening_try env o w) as [[a|e] w']; [exact Hw|].
  exact Hw.
Qed.

Lemma leaked_step (h : nat) (w : World) (e : Event) :
  leaked h w -> leaked h (step w e).
Proof.
  intros Hw. destruct e as [ |o|samples|v|s|ids|id]; cbn [step].
  - destruct (listening (state w)); [apply leaked_stop, Hw | exact Hw].
  - destruct (pending w) as [|env rest]; [exact Hw|]. apply leaked_start. exact Hw.
  - apply leaked_run_frame, Hw.
  - destruct (Qeq_bool v (volume (state w))); [exact Hw|].
    unfold volume_effect. cbn. destruct (gainNodeRef (refs w)); exact Hw.
  - exact Hw.
  - destruct ids; exact Hw.
  - destruct (listening (state w)); exact Hw.
Qed.

Lemma leaked_run (h : nat) (es : list Event) (w : World) :
  leaked h w -> leaked h (run w es).
Proof.
  revert w. induction es as [|e es IH]; intros w Hw; [exact Hw|].
  apply IH, leaked_step, Hw.
Qed.

(** The double start, evaluated. *)
Lemma started_twice_streams :
  streams (platform started_twice) !! 1%nat
    = Some {| constraint := None; tracks := [Live] |}
  /\ streams (platform started_twice) !! 5%nat
    = Some {| constraint := None; tracks := [Live] |}.
Proof. split; reflexivity. Qed.

Lemma started_twice_contexts :
  ac_state <$> contexts (platform started_twice) !! 2%nat = Some Running
  /\ ac_state <$> contexts (platform started_twice) !! 6%nat = Some Running.
Proof. split; reflexivity. Qed.

Lemma started_twice_next_handle : next_handle (platform started_twice) = 9%nat.
Proof. reflexivity. Qed.

Lemma stopped_after_two_streams :
  streams (platform (step started_twice Click)) !! 1%nat
    = Some {| constraint := None; tracks := [Live] |}
  /\ streams (platform (step started_twice Click)) !! 5%nat
    = Some {| constraint := None; tracks := [Ended] |}.
Proof. split; reflexivity. Qed.

Lemma stopped_after_two_contexts :
  ac_state <$> contexts (platform (step started_twice Click)) !! 2%nat = Some Running.
Proof. reflexivity. Qed.

Lemma stream_live_intro (w : World) (h : nat) (s : MediaStream) :
  streams (platform w) !! h = Some s -> Live ∈ tracks s -> stream_live w h.
Proof. intros Hs Hl. exists s. split; assumption. Qed.

Lemma context_running_intro (w : World) (c : nat) :
  ac_state <$> contexts (platform w) !! c = Some Running -> context_running w c.
Proof.
  unfold context_running. destruct (contexts (platform w) !! c) as [a|]; [|discriminate].
  intros [= Ha]. exists a. split; [reflexivity | exact Ha].
Qed.

(** C8, on the code: two clicks before the first [getUserMedia] settles run
    [startListening] twice.  Both streams ([1] and [5]) are then live, both
    audio contexts ([2] and [6]) run, and both [draw] loops are queued, while
    the handles of the session refer to the second start only.  A click on
    the button then stops the second stream and nothing of the first start;
    and whatever events follow the double start, stream [1] stays live and is
    never referred to again. *)
Theorem double_start_leaks (es : list Event) :
  (stream_live started_twice 1 /\ stream_live started_twice 5
   /\ context_running started_twice 2 /\ context_running started_twice 6
   /\ (frames (platform started_twice)).*1 = [4; 8]%nat)
  /\ (mediaStreamRef (refs started_twice) = Some 5%nat
      /\ audioContextRef (refs started_twice) = Some 6%nat
      /\ listening (state started_twice) = true)
  /\ (listening (state (step started_twice Click)) = false
      /\ stream_live (step started_twice Click) 1
      /\ ~ stream_live (step started_twice Click) 5
      /\ context_running (step started_twice Click) 2
      /\ (frames (platform (step started_twice Click))).*1 = [4]%nat)
  /\ leaked 1 (run started_twice es).
Proof.
  destruct started_twice_streams as [Hs1 Hs5].
  destruct started_twice_contexts as [Hc2 Hc6].
  destruct stopped_after_two_streams as [Ht1 Ht5].
  assert (stream_live started_twice 1) as Hlive
    by (eapply stream_live_intro; [exact Hs1 | apply list_elem_of_here]).
  split; [|split; [|split]].
  - split; [exact Hlive|].
    split; [eapply stream_live_intro; [exact Hs5 | apply list_elem_of_here]|].
    split; [apply context_running_intro, Hc2|].
    split; [apply context_running_intro, Hc6 | reflexivity].
  - split; [reflexivity|]. split; reflexivity.
  - split; [reflexivity|].
    split; [eapply stream_live_intro; [exact Ht1 | apply list_elem_of_here]|].
    split; [|split; [apply context_running_intro, stopped_after_two_contexts
                    | reflexivity]].
    intros (x & Hx & Hin). rewrite Ht5 in Hx. injection Hx as <-.
    apply list_elem_of_singleton in Hin. discriminate.
  - apply leaked_run. split; [exact Hlive|]. split; [discriminate|].
    rewrite started_twice_next_handle. lia.
Qed.

(** ** The parameters a frame uses *)

Lemma draw_on_state (f : State -> State) (self : DrawClosure) (samples : list Z)
    (w : World) :
  exec (draw self samples) (on_state f w) = on_state f (exec (draw self samples) w).
Proof. m_unfold. destruct (dc_canvas self); reflexivity. Qed.

Lemma run_frame_on_state (f : State -> State) (samples : list Z) (w : World) :
  run_frame samples (on_state f w) = on_state f (run_frame samples w).
Proof.
  unfold run_frame. change (frames (platform (on_state f w))) with (frames (platform w)).
  change (on_platform (set_frames []) (on_state f w))
    with (on_state f (on_platform (set_frames []) w)).
  generalize (on_platform (set_frames []) w) as w0.
  induction (frames (platform w)) as [|cb queue IH]; intros w0; cbn [fold_left].
  - reflexivity.
  - rewrite draw_on_state. apply IH.
Qed.

(** The array of a closure keeps its length, [fftSize], from frame to
    frame. *)
Lemma getByteTimeDomainData_length (samples dataArray : list Z) :
  length (getByteTimeDomainData samples dataArray) = length dataArray.
Proof.
  unfold getByteTimeDomainData. rewrite length_app, length_take, length_drop. lia.
Qed.

(** A frame draws with the sensitivity its closure holds. *)
Lemma draw_surface (self : DrawClosure) (samples : list Z) (w : World) (cv : Canvas) :
  dc_canvas self = Some cv ->
  surface (platform (exec (draw self samples) w))
  = draw_path cv (getByteTimeDomainData samples (dc_dataArray self)) (dc_sensitivity self).
Proof. intros Hcv. m_unfold. rewrite Hcv. reflexivity. Qed.

(** The effect of the volume slider reaches the gain node in [gainNodeRef]. *)
Lemma volume_change_gain (w : World) (v : Q) (g : nat) :
  gainNodeRef (refs w) = Some g -> Qeq_bool v (volume (state w)) = false ->
  gains (platform (step w (VolumeChange v))) !! g = Some v.
Proof.
  intros Hg Hv. cbn [step]. rewrite Hv. unfold volume_effect.
  change (gainNodeRef (refs (on_state (set_volume v) w))) with (gainNodeRef (refs w)).
  rewrite Hg. m_unfold. cbn. apply lookup_insert_eq.
Qed.

Lemma retuned_state :
  sensitivity (state retuned) = 1 /\ volume (state retuned) = 0.5.
Proof. split; reflexivity. Qed.

Lemma retuned_gain : output_gain retuned = Some 0.5.
Proof. reflexivity. Qed.

Lemma retuned_surface :
  surface (platform retuned) = draw_path home_canvas square_wave 0.2.
Proof. reflexivity. Qed.

Lemma square_wave_length : length square_wave = fftSize.
Proof. reflexivity. Qed.

Lemma square_wave_paths_differ :
  ~ Forall2 cmd_equiv (draw_path home_canvas square_wave 0.2)
                      (draw_path home_canvas square_wave 1).
Proof.
  intros H.
  assert (1 < length square_wave)%nat as Hlen
    by (rewrite square_wave_length; unfold fftSize; lia).
  pose proof (draw_path_lookup home_canvas square_wave 0.2 1 Hlen) as Ha.
  pose proof (draw_path_lookup home_canvas square_wave 1 1 Hlen) as Hb.
  destruct (Forall2_lookup_lr _ _ _ _ _ _ H Ha Hb) as (_ & _ & Hy).
  rewrite !cmd_y_anchor in Hy. vm_compute in Hy. discriminate.
Qed.

(** C5, on the code: a frame drawn after the sensitivity slider has moved
    leaves the same picture as if the slider had not moved, in every world.
    On a capturing session started at sensitivity [0.2], after the slider is
    set to [1] and the volume to [0.5], the next frame is drawn with [0.2]
    and not with the current [1], while the gain of the audio path is the
    current [0.5]. *)
Theorem stale_sensitivity (w : World) (s : Q) (samples : list Z) :
  surface (platform (run w [SensitivityChange s; AnimationFrame samples]))
  = surface (platform (run w [AnimationFrame samples]))
  /\ sensitivity (state retuned) = 1
  /\ surface (platform retuned) = draw_path home_canvas square_wave 0.2
  /\ ~ Forall2 cmd_equiv (surface (platform retuned))
                         (draw_path home_canvas square_wave (sensitivity (state retuned)))
  /\ volume (state retuned) = 0.5
  /\ output_gain retuned = Some (volume (state retuned)).
Proof.
  destruct retuned_state as [Hs Hv].
  split; [|split; [exact Hs | split; [exact retuned_surface | split; [|split]]]].
  - cbn [run fold_left step]. rewrite run_frame_on_state. reflexivity.
  - rewrite Hs, retuned_surface. exact square_wave_paths_differ.
  - exact Hv.
  - rewrite Hv. exact retuned_gain.
Qed.

(** * The scenarios on binary64 numbers *)

(** Silence on the canvas of [Home], at the initial sensitivity: every
    ordinate is [35]. *)
Example binary64_silence :
  Binary64.draw_path 300 70 [128; 128; 128; 128]%Z Binary64.one_fifth
  = [Binary64.MoveTo 0 35; Binary64.LineTo 75 35; Binary64.LineTo 150 35;
     Binary64.LineTo 225 35; Binary64.LineTo 300 35]%float.
Proof. vm_compute. reflexivity. Qed.

(** The square wave at sensitivity [1]: the raw values [(255/128) * 35] and
    [0], reproduced. *)
Example binary64_square_wave :
  Binary64.draw_path 300 70 [255; 0; 255; 0]%Z 1
  = [Binary64.MoveTo 0 69.7265625; Binary64.LineTo 75 0;
     Binary64.LineTo 150 69.7265625; Binary64.LineTo 225 0;
     Binary64.LineTo 300 35]%float.
Proof. vm_compute. reflexivity. Qed.

(** The square wave at sensitivity [0]: each ordinate is the raw value of
    the sample before. *)
Example binary64_square_wave_lag :
  Binary64.draw_path 300 70 [255; 0; 255; 0]%Z 0
  = [Binary64.MoveTo 0 69.7265625; Binary64.LineTo 75 69.7265625;
     Binary64.LineTo 150 0; Binary64.LineTo 225 69.7265625;
     Binary64.LineTo 300 35]%float.
Proof. vm_compute. reflexivity. Qed.

(** * Further properties of the renderer *)

Lemma index_bounds (i n : nat) :
  (i < n)%nat ->
  0 <= inject_Z (Z.of_nat i) /\ inject_Z (Z.of_nat i) <= inject_Z (Z.of_nat n)
  /\ 0 < inject_Z (Z.of_nat n).
Proof.
  intros Hi. change 0 with (inject_Z 0).
  rewrite <- !Zle_Qle, <- Zlt_Qlt. lia.
Qed.

Lemma x_at_bounds (W : Q) (i n : nat) :
  0 <= W -> (i < n)%nat ->
  0 <= x_at (W / inject_Z (Z.of_nat n)) i <= W.
Proof.
  intros HW Hi. rewrite x_at_linear.
  destruct (index_bounds i n Hi) as (Hk & Hkn & Hn).
  set (k := inject_Z (Z.of_nat i)) in *. set (m := inject_Z (Z.of_nat n)) in *.
  assert (0 <= / m) as Hinv by (apply Qlt_le_weak, Qinv_lt_0_compat, Hn).
  assert (0 <= W * / m) as Hsw by (apply Qmult_le_0_compat; assumption).
  split.
  - unfold Qdiv. apply Qmult_le_0_compat; assumption.
  - assert (k * (W / m) == W - W * / m * (m - k)) as -> by (field; lra).
    assert (0 <= W * / m * (m - k)) by (apply Qmult_le_0_compat; [assumption | lra]).
    lra.
Qed.

Lemma x_at_next (sliceWidth : Q) (i : nat) :
  0 < sliceWidth -> x_at sliceWidth i < x_at sliceWidth (S i).
Proof. intros Hs. cbn [x_at]. lra. Qed.

Lemma cmd_x_anchor (H : Q) (dataArray : list Z) (sensitivity sliceWidth : Q) (i : nat) :
  cmd_x (anchor H dataArray sensitivity sliceWidth i) = x_at sliceWidth i.
Proof. unfold anchor. destruct (i =? 0)%nat; reflexivity. Qed.

(** X1: Every command of the path has its abscissa on the canvas, between [0]
    and the width; and on a canvas of positive width the abscissas increase
    strictly from each command to the next, the closing one included. *)
Theorem draw_path_left_to_right (cv : Canvas) (dataArray : list Z) (s : Q) :
  0 <= width cv ->
  Forall (fun c => 0 <= cmd_x c <= width cv) (draw_path cv dataArray s)
  /\ (0 < width cv ->
      forall i c c',
        draw_path cv dataArray s !! i = Some c ->
        draw_path cv dataArray s !! S i = Some c' ->
        cmd_x c < cmd_x c').
Proof.
  intros HW. split.
  - rewrite draw_path_anchors. apply Forall_app. split.
    + apply Forall_fmap, Forall_forall. intros i Hi. cbn [compose].
      rewrite cmd_x_anchor. apply x_at_bounds; [assumption|].
      apply elem_of_seq in Hi. lia.
    + repeat constructor; simpl; lra.
  - intros HW' i c c' Hc Hc'.
    assert (S i < S (length dataArray))%nat as Hlt.
    { rewrite <- (draw_path_length cv dataArray s). eapply lookup_lt_Some, Hc'. }
    assert (i < length dataArray)%nat as Hi by lia.
    rewrite draw_path_lookup in Hc by assumption. injection Hc as <-.
    rewrite cmd_x_anchor.
    destruct (index_bounds i _ Hi) as (_ & _ & Hn).
    assert (0 < width cv / inject_Z (Z.of_nat (length dataArray))) as Hsw.
    { unfold Qdiv. apply Qmult_lt_0_compat; [assumption|].
      apply Qinv_lt_0_compat, Hn. }
    destruct (decide (S i = length dataArray)) as [Hlast | Hmid].
    + rewrite Hlast, draw_path_last in Hc'. injection Hc' as <-. cbn [cmd_x].
      destruct (x_at_bounds (width cv) i (length dataArray) HW Hi) as [_ Hle].
      pose proof (x_at_next _ i Hsw) as Hnext.
      assert (x_at (width cv / inject_Z (Z.of_nat (length dataArray))) (S i)
              == width cv) as Hend.
      { rewrite x_at_linear, Hlast. field. lra. }
      eapply Qlt_le_trans; [exact Hnext|]. apply Qle_lteq. right. exact Hend.
    + rewrite draw_path_lookup in Hc' by lia. injection Hc' as <-.
      rewrite cmd_x_anchor. apply x_at_next, Hsw.
Qed.

Lemma draw_path_left_to_right_witness :
  Forall (fun c => 0 <= cmd_x c <= 300) (draw_path home_canvas [255; 0; 255; 0]%Z 0.2).
Proof.
  apply (draw_path_left_to_right home_canvas [255; 0; 255; 0]%Z 0.2). discriminate.
Defined.

(** X2: At sensitivity [1] the anchor of every sample carries the raw [y] of
    that sample: nothing is smoothed. *)
Theorem draw_path_unsmoothed (cv : Canvas) (dataArray : list Z) (i : nat) (c : PathCmd) :
  (i < length dataArray)%nat ->
  draw_path cv dataArray 1 !! i = Some c ->
  cmd_y c == y_raw (height cv) dataArray i.
Proof.
  intros Hi Hc. rewrite draw_path_lookup in Hc by assumption. injection Hc as <-.
  rewrite cmd_y_anchor. apply y_smoothed_full.
Qed.

Lemma draw_path_unsmoothed_witness :
  cmd_y (LineTo (x_at (300 / 4) 1) (y_smoothed_spec 70 [255; 0; 255; 0]%Z 1 1))
  == y_raw 70 [255; 0; 255; 0]%Z 1.
Proof.
  apply (draw_path_unsmoothed home_canvas [255; 0; 255; 0]%Z 1); [simpl; lia|].
  reflexivity.
Defined.

(** X3: At sensitivity [0] the anchor of every sample after the first carries
    the raw [y] of the sample before it, and the first anchor its own: the
    trace is the raw one, one sample late. *)
Theorem draw_path_lagged (cv : Canvas) (dataArray : list Z) (i : nat) (c : PathCmd) :
  (i < length dataArray)%nat ->
  draw_path cv dataArray 0 !! i = Some c ->
  cmd_y c == y_raw (height cv) dataArray (i - 1).
Proof.
  intros Hi Hc. rewrite draw_path_lookup in Hc by assumption. injection Hc as <-.
  rewrite cmd_y_anchor. destruct i as [|i].
  - apply y_smoothed_first.
  - cbn [Nat.sub]. rewrite Nat.sub_0_r. apply y_smoothed_lag.
Qed.

Lemma draw_path_lagged_witness :
  cmd_y (LineTo (x_at (300 / 4) 1) (y_smoothed_spec 70 [255; 0; 255; 0]%Z 0 1))
  == y_raw 70 [255; 0; 255; 0]%Z 0.
Proof.
  apply (draw_path_lagged home_canvas [255; 0; 255; 0]%Z 1); [simpl; lia|].
  reflexivity.
Defined.

(** X4: For a sensitivity in [[0,1]] the ordinate of an anchor lies between the
    raw [y] of its sample and the raw [y] of the sample before: the trace
    never overshoots the two samples it interpolates. *)
Theorem draw_path_between (cv : Canvas) (dataArray : list Z) (s : Q) (i : nat) (c : PathCmd) :
  0 <= s <= 1 ->
  (i < length dataArray)%nat ->
  draw_path cv dataArray s !! i = Some c ->
  (y_raw (height cv) dataArray (i - 1) <= y_raw (height cv) dataArray i ->
   y_raw (height cv) dataArray (i - 1) <= cmd_y c <= y_raw (height cv) dataArray i)
  /\ (y_raw (height cv) dataArray i <= y_raw (height cv) dataArray (i - 1) ->
      y_raw (height cv) dataArray i <= cmd_y c <= y_raw (height cv) dataArray (i - 1)).
Proof.
  intros Hs Hi Hc. rewrite draw_path_lookup in Hc by assumption. injection Hc as <-.
  rewrite cmd_y_anchor. unfold y_smoothed_spec.
  assert (match i with
          | O => y_raw (height cv) dataArray 0
          | S j => y_raw (height cv) dataArray j
          end = y_raw (height cv) dataArray (i - 1)) as ->.
  { destruct i; [reflexivity|]. cbn [Nat.sub]. rewrite Nat.sub_0_r. reflexivity. }
  split; intros Hle; apply lerp_bounds; try assumption; split;
    (assumption || apply Qle_refl).
Qed.

Lemma draw_path_between_witness :
  y_raw 70 [255; 0; 255; 0]%Z 1
  <= cmd_y (LineTo (x_at (300 / 4) 1) (y_smoothed_spec 70 [255; 0; 255; 0]%Z 0.2 1))
  <= y_raw 70 [255; 0; 255; 0]%Z 0.
Proof.
  apply (draw_path_between home_canvas [255; 0; 255; 0]%Z 0.2 1);
    [split; discriminate | simpl; lia | reflexivity | discriminate].
Defined.

(** X5: The anchor of sample [i] is decided by samples [i - 1] and [i] alone:
    two buffers of one length that agree on these two samples give the same
    command at [i], whatever else they hold. *)
Theorem draw_path_local (cv : Canvas) (d d' : list Z) (s : Q) (i : nat) :
  length d = length d' ->
  (i < length d)%nat ->
  nth i d 0%Z = nth i d' 0%Z ->
  nth (i - 1) d 0%Z = nth (i - 1) d' 0%Z ->
  draw_path cv d s !! i = draw_path cv d' s !! i.
Proof.
  intros Hlen Hi Hcur Hprev.
  rewrite !draw_path_lookup by lia. rewrite <- Hlen. f_equal.
  unfold anchor, y_smoothed_spec, y_raw, sample. destruct i as [|i].
  - rewrite Hcur. reflexivity.
  - cbn [Nat.sub] in Hprev. rewrite Nat.sub_0_r in Hprev.
    rewrite Hcur, Hprev. reflexivity.
Qed.

Lemma draw_path_local_witness :
  draw_path home_canvas [10; 20; 30; 40]%Z 0.2 !! 2%nat
  = draw_path home_canvas [99; 20; 30; 77]%Z 0.2 !! 2%nat.
Proof.
  apply (draw_path_local home_canvas [10; 20; 30; 40]%Z [99; 20; 30; 77]%Z 0.2 2);
    [reflexivity | simpl; lia | reflexivity | reflexivity].
Defined.

Lemma constant_anchor (H : Q) (n : nat) (b : Z) (s : Q) (i : nat) :
  (i < n)%nat ->
  y_smoothed_spec H (replicate n b) s i == inject_Z b / 128 * H / 2.
Proof.
  intros Hi.
  assert (forall j, (j < n)%nat ->
            y_raw H (replicate n b) j = inject_Z b / 128 * H / 2) as Hraw.
  { intros j Hj. unfold y_raw, sample.
    rewrite (nth_lookup_Some _ _ _ b); [reflexivity|].
    apply lookup_replicate_2, Hj. }
  unfold y_smoothed_spec. destruct i as [|i].
  - rewrite Hraw by lia. ring.
  - rewrite !Hraw by lia. ring.
Qed.

Lemma level_is_half_height (H : Q) (b : Z) :
  ~ H == 0 -> inject_Z b / 128 * H / 2 == H / 2 -> b = 128%Z.
Proof.
  intros HH Heq.
  assert (inject_Z b * H == 128 * H) as Hmul.
  { assert (inject_Z b * H == 256 * (inject_Z b / 128 * H / 2)) as -> by field.
    rewrite Heq. field. }
  apply Qmult_inj_r in Hmul; [|exact HH].
  apply inject_Z_injective. exact Hmul.
Qed.

(** X6: In the path of a buffer that holds one byte [b] throughout, every
    point drawn for a sample is at [(b / 128) * H / 2], whatever the
    sensitivity, and the closing point is at [H / 2].  So the whole path,
    closing line included, is the horizontal line at [H / 2] when [b] is
    [128]; and when there is a sample and the height is not [0], only
    then. *)
Theorem draw_path_constant (cv : Canvas) (n : nat) (b : Z) (s : Q) :
  Forall (fun c => cmd_y c == inject_Z b / 128 * height cv / 2)
         (take n (draw_path cv (replicate n b) s))
  /\ draw_path cv (replicate n b) s !! n = Some (LineTo (width cv) (height cv / 2))
  /\ (b = 128%Z ->
      Forall (fun c => cmd_y c == height cv / 2) (draw_path cv (replicate n b) s))
  /\ (Forall (fun c => cmd_y c == height cv / 2) (draw_path cv (replicate n b) s) ->
      (0 < n)%nat -> ~ height cv == 0 -> b = 128%Z).
Proof.
  assert (Forall (fun c => cmd_y c == inject_Z b / 128 * height cv / 2)
            (anchor (height cv) (replicate n b) s
               (width cv / inject_Z (Z.of_nat (length (replicate n b))))
             <$> seq 0 n)) as Hanchors.
  { apply Forall_fmap, Forall_forall. intros i Hi. cbn [compose].
    apply elem_of_seq in Hi. rewrite cmd_y_anchor. apply constant_anchor. lia. }
  split; [|split; [|split]].
  - rewrite draw_path_anchors, length_replicate.
    rewrite take_app_length' by (rewrite length_fmap, length_seq; reflexivity).
    rewrite length_replicate in Hanchors. exact Hanchors.
  - pose proof (draw_path_last cv (replicate n b) s) as Hlast.
    rewrite length_replicate in Hlast. exact Hlast.
  - intros ->. rewrite draw_path_anchors, length_replicate. apply Forall_app. split.
    + rewrite length_replicate in Hanchors.
      eapply Forall_impl; [exact Hanchors|]. intros c Hc. cbn beta in Hc.
      rewrite Hc. field.
    + repeat constructor.
  - intros Hflat Hn HH.
    assert (0 < length (replicate n b))%nat as Hlen by (rewrite length_replicate; exact Hn).
    pose proof (draw_path_lookup cv (replicate n b) s 0 Hlen) as Hfirst.
    rewrite Forall_lookup in Hflat. specialize (Hflat _ _ Hfirst).
    cbn beta in Hflat. rewrite cmd_y_anchor, constant_anchor in Hflat by exact Hn.
    apply (level_is_half_height (height cv)); assumption.
Qed.

(** * Further properties of the capture session *)

(** ** One session, from start to stop *)

Lemma run_app (w : World) (es es' : list Event) :
  run w (es ++ es') = run (run w es) es'.
Proof. apply fold_left_app. Qed.

Lemma alter_inserted {A : Type} (m : gmap nat A) (k : nat) (f : A -> A) (x : A) :
  alter f k (<[k := x]> m) = <[k := f x]> m.
Proof.
  apply map_eq. intros j. destruct (decide (j = k)) as [->|Hne].
  - rewrite lookup_alter_eq, !lookup_insert_eq. reflexivity.
  - rewrite lookup_alter_ne, !lookup_insert_ne by congruence. reflexivity.
Qed.

(** The world a start without exception leaves, field by field. *)
Lemma start_fields (env : State) (o : Outcome) (w : World) :
  succeeds o ->
  fst (startListening env o w) = Val tt
  /\ state (exec (startListening env o) w) = set_listening true (state w)
  /\ pending (exec (startListening env o) w) = pending w
  /\ mediaStreamRef (refs (exec (startListening env o) w))
     = Some (next_handle (platform w))
  /\ audioContextRef (refs (exec (startListening env o) w))
     = Some (S (next_handle (platform w)))
  /\ gainNodeRef (refs (exec (startListening env o) w))
     = Some (S (S (next_handle (platform w))))
  /\ canvasRef (refs (exec (startListening env o) w)) = canvasRef (refs w)
  /\ streams (platform (exec (startListening env o) w))
     = <[next_handle (platform w) :=
           {| constraint := if String.eqb (selectedDeviceId env) "" then None
                            else Some (selectedDeviceId env);
              tracks := replicate (granted o) Live |}]> (streams (platform w))
  /\ contexts (platform (exec (startListening env o) w))
     = <[S (next_handle (platform w)) :=
           {| ac_state := Running; ac_source := Some (next_handle (platform w));
              ac_gain := Some (S (S (next_handle (platform w))));
              ac_edges := [(Source, Gain); (Gain, Destination); (Source, Analyser)] |}]>
         (contexts (platform w))
  /\ gains (platform (exec (startListening env o) w))
     = <[S (S (next_handle (platform w))) := volume env]> (gains (platform w))
  /\ console (platform (exec (startListening env o) w)) = console (platform w)
  /\ match canvasRef (refs w) with
     | Some canvas =>
         frames (platform (exec (startListening env o) w))
         = frames (platform w)
           ++ [(S (S (S (next_handle (platform w)))),
                {| dc_canvas := Some canvas;
                   dc_analyser := S (next_handle (platform w));
                   dc_dataArray :=
                     getByteTimeDomainData (time_domain o) (replicate fftSize 0%Z);
                   dc_sensitivity := sensitivity env |})]
         /\ animationRef (refs (exec (startListening env o) w))
            = S (S (S (next_handle (platform w))))
         /\ surface (platform (exec (startListening env o) w))
            = draw_path canvas
                (getByteTimeDomainData (time_domain o) (replicate fftSize 0%Z))
                (sensitivity env)
         /\ next_handle (platform (exec (startListening env o) w))
            = S (S (S (S (next_handle (platform w)))))
     | None =>
         frames (platform (exec (startListening env o) w)) = frames (platform w)
         /\ animationRef (refs (exec (startListening env o) w)) = animationRef (refs w)
         /\ surface (platform (exec (startListening env o) w)) = surface (platform w)
         /\ next_handle (platform (exec (startListening env o) w))
            = S (S (S (next_handle (platform w))))
     end.
Proof.
  intros Hs. unfold exec.
  destruct (startListening env o w) as [r w'] eqn:Hrun. revert Hrun.
  destruct w as [[id l v s] [cv ac ms an gn] [st cx gs fr nh sf co] pend].
  unfold startListening, startListening_try. m_unfold. rewrite !Hs.
  destruct cv as [canvas|]; cbn -[draw_path replicate fftSize getByteTimeDomainData];
    intros [= <- <-]; cbn -[draw_path replicate fftSize getByteTimeDomainData];
    rewrite insert_insert_eq, !alter_inserted; repeat split.
Qed.

Lemma click_settle (w : World) (o : Outcome) :
  listening (state w) = false -> pending w = [] ->
  run w [Click; Settle o] = exec (startListening (state w) o) w.
Proof.
  destruct w as [st r p pend]. cbn. intros -> ->. reflexivity.
Qed.

Lemma start_opens_session (w0 : World) (o : Outcome) :
  succeeds o -> idle w0 -> pending w0 = [] ->
  session w0 (run w0 [Click; Settle o]).
Proof.
  intros Hs (Hms & Hac & Hfr & Hl) Hp. rewrite click_settle by assumption.
  destruct (start_fields (state w0) o w0 Hs)
    as (_ & Hstate & Hpend & Hstream & Hctx & _ & _ & Hstreams & Hcontexts & _ & _ & Hloop).
  unfold session, loop_tracked.
  rewrite Hstate, Hpend, Hstream, Hctx, Hstreams, Hcontexts.
  split; [reflexivity|]. split; [exact Hp|]. split.
  - eexists _, _. split; [reflexivity|]. split; [reflexivity|].
    split; intros k Hne; apply lookup_insert_ne; congruence.
  - destruct (canvasRef (refs w0)) as [canvas|];
      destruct Hloop as (Hq & Han & _ & Hnext).
    + right. rewrite Hq, Han, Hnext, Hfr. split; [|split; discriminate].
      eexists _, canvas. split; reflexivity.
    + left. rewrite Hq. exact Hfr.
Qed.

Lemma session_step (w0 w : World) (e : Event) :
  session w0 w -> quiet e = true -> session w0 (step w e).
Proof.
  destruct w as [[id l v s] [cv ac ms an gn] [st cx gs fr nh sf co] pend].
  unfold session, loop_tracked. cbn.
  intros (-> & -> & Hrefs & Hloop) Hq.
  destruct e as [ |o|samples|v'|s'|ids|id']; try discriminate Hq; cbn [step].
  - (* a frame *)
    unfold run_frame. cbn.
    destruct Hloop as [-> | ((self & canvas & -> & Hcv) & Han & Hnh)]; cbn.
    + repeat split; [exact Hrefs | left; reflexivity].
    + m_unfold. rewrite Hcv. cbn -[draw_path getByteTimeDomainData].
      repeat split; [exact Hrefs|]. right.
      split; [|split; [exact Hnh | discriminate]].
      eexists _, canvas. split; reflexivity.
  - (* the volume slider *)
    cbn. destruct (Qeq_bool v' v); cbn; [repeat split; assumption|].
    unfold volume_effect. cbn. destruct gn; cbn; repeat split; assumption.
  - cbn. repeat split; assumption.
  - destruct ids; cbn; repeat split; assumption.
  - cbn. repeat split; assumption.
Qed.

Lemma session_run (w0 w : World) (es : list Event) :
  session w0 w -> Forall (fun e => quiet e = true) es -> session w0 (run w es).
Proof.
  intros Hw Hes. revert w Hw.
  induction Hes as [|e es He _ IH]; intros w Hw; [exact Hw|].
  apply IH, session_step; assumption.
Qed.

(** The world [stopListening] leaves, field by field. *)
Lemma stop_fields (w : World) :
  state (exec stopListening w) = set_listening false (state w)
  /\ pending (exec stopListening w) = pending w
  /\ refs (exec stopListening w)
     = set_audioContextRef None (set_mediaStreamRef None (refs w))
  /\ streams (platform (exec stopListening w))
     = match mediaStreamRef (refs w) with
       | Some h => alter (fun s => {| constraint := constraint s;
                                      tracks := map (fun _ => Ended) (tracks s) |})
                         h (streams (platform w))
       | None => streams (platform w)
       end
  /\ contexts (platform (exec stopListening w))
     = match audioContextRef (refs w) with
       | Some c => alter (fun a => {| ac_state := Closed; ac_source := ac_source a;
                                      ac_gain := ac_gain a; ac_edges := ac_edges a |})
                         c (contexts (platform w))
       | None => contexts (platform w)
       end
  /\ frames (platform (exec stopListening w))
     = (if (animationRef (refs w) =? 0)%nat then frames (platform w)
        else filter (fun r => bool_decide (fst r <> animationRef (refs w)))
                    (frames (platform w)))
  /\ gains (platform (exec stopListening w)) = gains (platform w)
  /\ next_handle (platform (exec stopListening w)) = next_handle (platform w)
  /\ surface (platform (exec stopListening w)) = surface (platform w)
  /\ console (platform (exec stopListening w)) = console (platform w).
Proof.
  destruct w as [[id l v s] [cv ac ms an gn] [st cx gs fr nh sf co] pend].
  unfold stopListening. m_unfold.
  destruct ms, ac, an; cbn; repeat split.
Qed.

Lemma cancel_only_request (id : nat) (self : DrawClosure) :
  filter (fun r => bool_decide (fst r <> id)) [(id, self)] = [].
Proof.
  rewrite filter_cons_False; [reflexivity|].
  cbn. rewrite bool_decide_false; [exact (fun x => x) | congruence].
Qed.

Lemma stop_closes_session (w0 w : World) :
  session w0 w ->
  idle (step w Click) /\ nothing_acquired w0 (step w Click)
  /\ pending (step w Click) = [].
Proof.
  intros (Hl & Hp & (h & c & Hms & Hac & Hst & Hcx) & Hloop).
  cbn [step]. rewrite Hl.
  destruct (stop_fields w)
    as (Hstate & Hpend & Hrefs & Hstreams & Hcontexts & Hframes & _).
  rewrite Hms in Hstreams. rewrite Hac in Hcontexts.
  unfold idle, nothing_acquired, stream_live, context_running.
  rewrite Hstate, Hpend, Hrefs, Hstreams, Hcontexts, Hframes.
  repeat split; try reflexivity; try assumption.
  - destruct Hloop as [-> | ((self & canvas & -> & _) & Han & _)].
    + destruct (animationRef (refs w) =? 0)%nat; reflexivity.
    + apply Nat.eqb_neq in Han. rewrite Han. apply cancel_only_request.
  - intros h' (x & Hx & Hlive). destruct (decide (h' = h)) as [->|Hne].
    + apply stopped_not_live in Hx. contradiction.
    + rewrite lookup_alter_ne in Hx by congruence.
      rewrite Hst in Hx by assumption. eauto.
  - intros c' (x & Hx & Hrun). destruct (decide (c' = c)) as [->|Hne].
    + apply closed_not_running in Hx. contradiction.
    + rewrite lookup_alter_ne in Hx by congruence.
      rewrite Hcx in Hx by assumption. eauto.
Qed.

Lemma frames_done (w : World) (ss : list (list Z)) :
  frames (platform w) = [] -> run w (map AnimationFrame ss) = w.
Proof.
  intros Hfr. induction ss as [|samples ss IH]; [reflexivity|].
  cbn [map run fold_left step]. unfold run_frame. rewrite Hfr. cbn [fold_left].
  assert (on_platform (set_frames []) w = w) as ->; [|exact IH].
  destruct w as [st r [a b c fr e f g] pend]. cbn in Hfr. subst fr. reflexivity.
Qed.

(** X9: A session started from an idle component and stopped by the button,
    after any frames, slider moves and device events in between, leaves the
    component idle with no start pending, holds no stream and no audio
    context that was not held before the start, and its render loop does not
    resume: further frames change nothing. *)
Theorem session_lifecycle (w0 : World) (o : Outcome) (es : list Event)
    (ss : list (list Z)) :
  succeeds o -> idle w0 -> pending w0 = [] ->
  Forall (fun e => quiet e = true) es ->
  idle (run w0 (Click :: Settle o :: es ++ [Click]))
  /\ pending (run w0 (Click :: Settle o :: es ++ [Click])) = []
  /\ nothing_acquired w0 (run w0 (Click :: Settle o :: es ++ [Click]))
  /\ run (run w0 (Click :: Settle o :: es ++ [Click])) (map AnimationFrame ss)
     = run w0 (Click :: Settle o :: es ++ [Click]).
Proof.
  intros Hs Hidle Hpend Hes.
  change (Click :: Settle o :: es ++ [Click]) with ([Click; Settle o] ++ es ++ [Click]).
  rewrite !run_app.
  pose proof (start_opens_session w0 o Hs Hidle Hpend) as Hsession.
  apply (session_run _ _ es) in Hsession; [|exact Hes].
  destruct (stop_closes_session _ _ Hsession) as (Hidle' & Hacq & Hpend').
  change (run (run (run w0 [Click; Settle o]) es) [Click])
    with (step (run (run w0 [Click; Settle o]) es) Click).
  repeat split; try assumption; try apply Hidle'; try apply Hacq.
  apply frames_done, Hidle'.
Qed.

Lemma session_lifecycle_witness :
  idle (run init (Click :: Settle granted_silence
                    :: [AnimationFrame square_wave; SensitivityChange 1] ++ [Click])).
Proof.
  apply (session_lifecycle init granted_silence
           [AnimationFrame square_wave; SensitivityChange 1] []).
  - intros c. reflexivity.
  - repeat split.
  - reflexivity.
  - repeat constructor.
Defined.

(** ** The render loop of a session *)

Lemma start_opens_loop (w0 : World) (o : Outcome) (canvas : Canvas) :
  succeeds o -> listening (state w0) = false -> pending w0 = [] ->
  frames (platform w0) = [] -> canvasRef (refs w0) = Some canvas ->
  loop_of canvas (sensitivity (state w0)) (run w0 [Click; Settle o]).
Proof.
  intros Hs Hl Hp Hfr Hcv. rewrite click_settle by assumption.
  destruct (start_fields (state w0) o w0 Hs)
    as (_ & _ & _ & _ & _ & _ & _ & _ & _ & _ & _ & Hloop).
  rewrite Hcv in Hloop. destruct Hloop as (Hq & Han & _).
  unfold loop_of. rewrite Hq, Han, Hfr.
  eexists. split; [reflexivity|]. split; [reflexivity|]. split; [reflexivity|].
  cbn [dc_dataArray]. rewrite getByteTimeDomainData_length. apply length_replicate.
Qed.

Lemma loop_of_step (canvas : Canvas) (s : Q) (w : World) (e : Event) :
  loop_of canvas s w -> quiet e = true -> loop_of canvas s (step w e).
Proof.
  destruct w as [[id l v s0] [cv ac ms an gn] [st cx gs fr nh sf co] pend].
  unfold loop_of. cbn. intros (self & -> & Hcv & Hsens & Hlen) Hq.
  destruct e as [ |o|samples|v'|s'|ids|id']; try discriminate Hq; cbn [step].
  - unfold run_frame. cbn. m_unfold. rewrite Hcv.
    cbn -[draw_path getByteTimeDomainData fftSize].
    eexists. split; [reflexivity|]. split; [reflexivity|]. split; [exact Hsens|].
    cbn -[getByteTimeDomainData fftSize].
    rewrite getByteTimeDomainData_length. exact Hlen.
  - cbn. destruct (Qeq_bool v' v); cbn; [eauto|].
    unfold volume_effect. cbn. destruct gn; cbn; eauto.
  - cbn. eauto.
  - destruct ids; cbn; eauto.
  - destruct l; cbn; eauto.
Qed.

Lemma loop_of_run (canvas : Canvas) (s : Q) (w : World) (es : list Event) :
  loop_of canvas s w -> Forall (fun e => quiet e = true) es ->
  loop_of canvas s (run w es).
Proof.
  intros Hw Hes. revert w Hw.
  induction Hes as [|e es He _ IH]; intros w Hw; [exact Hw|].
  apply IH, loop_of_step; assumption.
Qed.

Lemma overwrite_all (samples dataArray : list Z) :
  length samples = length dataArray ->
  getByteTimeDomainData samples dataArray = samples.
Proof.
  intros Hlen. unfold getByteTimeDomainData.
  rewrite take_ge, drop_ge by lia. apply app_nil_r.
Qed.

Lemma loop_of_frame (canvas : Canvas) (s : Q) (w : World) (samples : list Z) :
  loop_of canvas s w -> length samples = fftSize ->
  surface (platform (step w (AnimationFrame samples))) = draw_path canvas samples s.
Proof.
  destruct w as [[id l v s0] [cv ac ms an gn] [st cx gs fr nh sf co] pend].
  unfold loop_of. cbn. intros (self & -> & Hcv & Hsens & Hlen) Hsamples.
  unfold run_frame. cbn. m_unfold. rewrite Hcv.
  cbn -[draw_path getByteTimeDomainData fftSize].
  rewrite overwrite_all, Hsens by congruence. reflexivity.
Qed.

(** X10: While a session started with a canvas runs, whatever frames, slider
    moves and device events occur, exactly one frame request is queued, its
    id is the one in [animationRef], and its callback draws on that canvas
    with the sensitivity the component had when the button was clicked. *)
Theorem session_loop (w0 : World) (o : Outcome) (canvas : Canvas) (es : list Event) :
  succeeds o -> listening (state w0) = false -> pending w0 = [] ->
  frames (platform w0) = [] -> canvasRef (refs w0) = Some canvas ->
  Forall (fun e => quiet e = true) es ->
  loop_of canvas (sensitivity (state w0)) (run w0 (Click :: Settle o :: es)).
Proof.
  intros Hs Hl Hp Hfr Hcv Hes.
  change (Click :: Settle o :: es) with ([Click; Settle o] ++ es).
  rewrite run_app. apply loop_of_run; [|exact Hes].
  apply start_opens_loop; assumption.
Qed.

Lemma session_loop_witness :
  loop_of home_canvas 0.2
    (run init (Click :: Settle granted_silence
                 :: [AnimationFrame square_wave; SensitivityChange 1])).
Proof.
  apply (session_loop init granted_silence home_canvas
           [AnimationFrame square_wave; SensitivityChange 1]);
    try reflexivity.
  - intros c. reflexivity.
  - repeat constructor.
Defined.



(** ** What a start sets up *)

(** X7: A start in which no call raises returns normally and leaves the
    component listening to a stream whose tracks are all live, asked for
    with the selected device as an exact constraint (with no constraint when
    no device is selected); the stream feeds a running audio context in which
    the source is connected to the gain node, the gain node to the
    destination and the source to the analyser; and the output gain is the
    volume of the render that was clicked. *)
Theorem start_routes_audio (env : State) (o : Outcome) (w : World) :
  succeeds o ->
  fst (startListening env o w) = Val tt
  /\ listening (state (exec (startListening env o) w)) = true
  /\ (exists h c a,
        mediaStreamRef (refs (exec (startListening env o) w)) = Some h
        /\ streams (platform (exec (startListening env o) w)) !! h
           = Some {| constraint := if String.eqb (selectedDeviceId env) "" then None
                                   else Some (selectedDeviceId env);
                     tracks := replicate (granted o) Live |}
        /\ audioContextRef (refs (exec (startListening env o) w)) = Some c
        /\ contexts (platform (exec (startListening env o) w)) !! c = Some a
        /\ ac_state a = Running
        /\ ac_source a = Some h
        /\ ac_edges a = [(Source, Gain); (Gain, Destination); (Source, Analyser)])
  /\ output_gain (exec (startListening env o) w) = Some (volume env).
Proof.
  intros Hs.
  destruct (start_fields env o w Hs)
    as (Hval & Hstate & _ & Hms & Hac & _ & _ & Hstreams & Hcontexts & Hgains & _).
  split; [exact Hval|]. split; [rewrite Hstate; reflexivity|]. split.
  - eexists _, _, _. rewrite Hms, Hac, Hstreams, Hcontexts, !lookup_insert_eq.
    repeat split.
  - unfold output_gain. rewrite Hac, Hcontexts, Hgains. cbn.
    rewrite lookup_insert_eq. cbn. apply lookup_insert_eq.
Qed.

Lemma start_routes_audio_witness :
  output_gain (exec (startListening (state init) granted_silence) init) = Some 1.
Proof.
  apply (start_routes_audio (state init) granted_silence init). intros c. reflexivity.
Defined.

(** X8: A start with no canvas to draw on still captures and routes the audio,
    but draws nothing and requests no frame: the picture, the queue of frame
    requests and [animationRef] are untouched. *)
Theorem start_without_canvas (env : State) (o : Outcome) (w : World) :
  succeeds o -> canvasRef (refs w) = None ->
  listening (state (exec (startListening env o) w)) = true
  /\ output_gain (exec (startListening env o) w) = Some (volume env)
  /\ surface (platform (exec (startListening env o) w)) = surface (platform w)
  /\ frames (platform (exec (startListening env o) w)) = frames (platform w)
  /\ animationRef (refs (exec (startListening env o) w)) = animationRef (refs w).
Proof.
  intros Hs Hcv.
  destruct (start_fields env o w Hs)
    as (_ & Hstate & _ & _ & Hac & _ & _ & _ & Hcontexts & Hgains & _ & Hloop).
  rewrite Hcv in Hloop. destruct Hloop as (Hfr & Han & Hsf & _).
  split; [rewrite Hstate; reflexivity|]. split; [|repeat split; assumption].
  unfold output_gain. rewrite Hac, Hcontexts, Hgains. cbn.
  rewrite lookup_insert_eq. cbn. apply lookup_insert_eq.
Qed.

Lemma start_without_canvas_witness :
  frames (platform (exec (startListening (state init) granted_silence)
                      (on_refs (fun r => {| canvasRef := None;
                                            audioContextRef := audioContextRef r;
                                            mediaStreamRef := mediaStreamRef r;
                                            animationRef := animationRef r;
                                            gainNodeRef := gainNodeRef r |}) init)))
  = [].
Proof.
  apply (start_without_canvas (state init) granted_silence
           (on_refs (fun r => {| canvasRef := None;
                                 audioContextRef := audioContextRef r;
                                 mediaStreamRef := mediaStreamRef r;
                                 animationRef := animationRef r;
                                 gainNodeRef := gainNodeRef r |}) init)).
  - intros c. reflexivity.
  - reflexivity.
Defined.

(** ** The volume *)

Lemma start_gain_follows (w0 : World) (o : Outcome) :
  succeeds o -> listening (state w0) = false -> pending w0 = [] ->
  gain_follows_volume (run w0 [Click; Settle o]).
Proof.
  intros Hs Hl Hp. rewrite click_settle by assumption.
  destruct (start_fields (state w0) o w0 Hs)
    as (_ & Hstate & _ & _ & Hac & Hgn & _ & _ & Hcontexts & Hgains & _).
  unfold gain_follows_volume. rewrite Hstate, Hac, Hgn, Hcontexts, Hgains.
  eexists _, _, _. split; [reflexivity|]. split; [apply lookup_insert_eq|].
  split; [reflexivity|]. split; [reflexivity|]. apply lookup_insert_eq.
Qed.

Lemma gain_follows_draw (self : DrawClosure) (samples : list Z) (w : World) :
  gain_follows_volume w -> gain_follows_volume (exec (draw self samples) w).
Proof.
  destruct w as [[id l v s0] [cv ac ms an gn] [st cx gs fr nh sf co] pend].
  unfold gain_follows_volume. m_unfold. destruct (dc_canvas self); intros Hw; exact Hw.
Qed.

Lemma gain_follows_frame (samples : list Z) (w : World) :
  gain_follows_volume w -> gain_follows_volume (run_frame samples w).
Proof.
  unfold run_frame. generalize (frames (platform w)) as queue. intros queue Hw.
  assert (gain_follows_volume (on_platform (set_frames []) w)) as Hw' by exact Hw.
  revert Hw'. generalize (on_platform (set_frames []) w). clear Hw.
  induction queue as [|cb queue IH]; intros w1 Hw1; cbn [fold_left]; [exact Hw1|].
  apply IH, gain_follows_draw, Hw1.
Qed.

Lemma gain_follows_step (w : World) (e : Event) :
  gain_follows_volume w -> quiet e = true -> gain_follows_volume (step w e).
Proof.
  intros Hw Hq.
  destruct e as [ |o|samples|v'|s'|ids|id']; try discriminate Hq; cbn [step].
  - apply gain_follows_frame, Hw.
  - destruct (Qeq_bool v' (volume (state w))); [exact Hw|].
    destruct Hw as (c & a & g & Hac & Hc & Ha & Hgn & Hg).
    unfold volume_effect.
    change (gainNodeRef (refs (on_state (set_volume v') w))) with (gainNodeRef (refs w)).
    rewrite Hgn. exists c, a, g. repeat split; try assumption.
    m_unfold. cbn. apply lookup_insert_eq.
  - exact Hw.
  - destruct ids; exact Hw.
  - destruct (listening (state w)); exact Hw.
Qed.

Lemma gain_follows_run (w : World) (es : list Event) :
  gain_follows_volume w -> Forall (fun e => quiet e = true) es ->
  gain_follows_volume (run w es).
Proof.
  intros Hw Hes. revert w Hw.
  induction Hes as [|e es He _ IH]; intros w Hw; [exact Hw|].
  apply IH, gain_follows_step; assumption.
Qed.

Lemma gain_follows_output (w : World) :
  gain_follows_volume w -> output_gain w = Some (volume (state w)).
Proof.
  intros (c & a & g & Hac & Hc & Ha & _ & Hg).
  unfold output_gain. rewrite Hac. cbn. rewrite Hc. cbn. rewrite Ha. cbn. exact Hg.
Qed.

(** X12: During a session the output gain is the volume of the component, after
    any frames, moves of the sliders and device events: every change of the
    volume reaches the gain node. *)
Theorem session_gain (w0 : World) (o : Outcome) (es : list Event) :
  succeeds o -> listening (state w0) = false -> pending w0 = [] ->
  Forall (fun e => quiet e = true) es ->
  output_gain (run w0 (Click :: Settle o :: es))
  = Some (volume (state (run w0 (Click :: Settle o :: es)))).
Proof.
  intros Hs Hl Hp Hes.
  change (Click :: Settle o :: es) with ([Click; Settle o] ++ es). rewrite run_app.
  pose proof (start_gain_follows w0 o Hs Hl Hp) as Hw.
  apply (gain_follows_run _ es) in Hw; [|exact Hes].
  apply gain_follows_output, Hw.
Qed.

Lemma session_gain_witness :
  output_gain (run init (Click :: Settle granted_silence
                           :: [VolumeChange 0.5; AnimationFrame square_wave]))
  = Some (volume (state (run init (Click :: Settle granted_silence
                           :: [VolumeChange 0.5; AnimationFrame square_wave])))).
Proof.
  apply (session_gain init granted_silence [VolumeChange 0.5; AnimationFrame square_wave]);
    try reflexivity.
  - intros c. reflexivity.
  - repeat constructor.
Defined.

(** X13: A move of the volume slider between the click and the moment
    [getUserMedia] settles is lost: the session starts with the output gain
    at the volume of the render that was clicked, while the component shows
    the new volume. *)
Theorem volume_before_settle (w : World) (o : Outcome) (v : Q) :
  succeeds o -> listening (state w) = false -> pending w = [] ->
  Qeq_bool v (volume (state w)) = false ->
  volume (state (run w [Click; VolumeChange v; Settle o])) = v
  /\ output_gain (run w [Click; VolumeChange v; Settle o]) = Some (volume (state w)).
Proof.
  intros Hs Hl Hp Hv.
  assert (exists w1, run w [Click; VolumeChange v; Settle o]
                     = exec (startListening (state w) o) w1
                     /\ volume (state w1) = v) as (w1 & -> & Hw1).
  { destruct w as [[id l vol s0] [cv ac ms an gn] [st cx gs fr nh sf co] pend].
    cbn in Hl, Hp, Hv. subst l pend. cbn. rewrite Hv. unfold volume_effect. cbn.
    destruct gn; cbn; eexists; split; reflexivity. }
  destruct (start_fields (state w) o w1 Hs)
    as (_ & Hstate & _ & _ & Hac & _ & _ & _ & Hcontexts & Hgains & _).
  split; [rewrite Hstate; exact Hw1|].
  unfold output_gain. rewrite Hac, Hcontexts, Hgains. cbn.
  rewrite lookup_insert_eq. cbn. apply lookup_insert_eq.
Qed.

Lemma volume_before_settle_witness :
  volume (state (run init [Click; VolumeChange 0.5; Settle granted_silence])) = 0.5
  /\ output_gain (run init [Click; VolumeChange 0.5; Settle granted_silence]) = Some 1.
Proof.
  apply (volume_before_settle init granted_silence 0.5); try reflexivity.
  intros c. reflexivity.
Defined.

(** ** A start that fails after the stream was granted *)

(** X14: When [getUserMedia] grants a stream with at least one track and a later
    call of [startListening] raises, the stream stays live and no handle of
    the session refers to it, whatever events follow: the [catch] block
    releases nothing. *)
Theorem failed_start_leaks_stream (env : State) (o : Outcome) (w : World)
    (e : string) (es : list Event) :
  raises o GetUserMedia = false -> (0 < granted o)%nat ->
  fst (startListening_try env o w) = Throw e ->
  mediaStreamRef (refs w) <> Some (next_handle (platform w)) ->
  leaked (next_handle (platform w)) (run (exec (startListening env o) w) es).
Proof.
  intros Hgum Hgranted Hthrow Hfresh. apply leaked_run.
  unfold startListening, try_catch, exec.
  destruct (startListening_try env o w) as [[a|e'] w'] eqn:Htry; [discriminate|].
  clear Hthrow. revert Htry.
  destruct w as [[id l v s] [cv ac ms an gn] [st cx gs fr nh sf co] pend].
  cbn in Hfresh.
  assert (Live ∈ replicate (granted o) Live) as Hlive.
  { destruct (granted o); [lia|]. apply list_elem_of_here. }
  unfold leaked, stream_live, startListening_try. m_unfold. rewrite Hgum.
  repeat lazymatch goal with
  | |- context [if raises o ?c then _ else _] =>
      destruct (raises o c) eqn:?;
      [ intros [= <- <-]; cbn; split;
        [ eexists; split; [apply lookup_insert_eq | exact Hlive]
        | split; [exact Hfresh | lia] ]
      | ]
  end.
  destruct cv; cbn -[draw_path replicate fftSize getByteTimeDomainData]; discriminate.
Qed.

Lemma failed_start_leaks_stream_witness :
  leaked 1 (run (exec (startListening (state init) context_raises) init) [Click]).
Proof.
  apply (failed_start_leaks_stream (state init) context_raises init "DOMException" [Click]).
  - reflexivity.
  - cbn. lia.
  - reflexivity.
  - discriminate.
Defined.

(** ** [stopListening], twice *)

Lemma cancel_twice (id : nat) (q : list (nat * DrawClosure)) :
  filter (fun r => bool_decide (fst r <> id)) (filter (fun r => bool_decide (fst r <> id)) q)
  = filter (fun r => bool_decide (fst r <> id)) q.
Proof.
  induction q as [|r q IH]; [reflexivity|].
  rewrite (filter_cons _ r q). destruct (decide _) as [Hr|Hr]; [|exact IH].
  rewrite filter_cons_True by exact Hr. rewrite IH. reflexivity.
Qed.

(** X15: [stopListening] is idempotent in every world: a second call right after
    the first changes nothing. *)
Theorem stop_twice (w : World) :
  exec stopListening (exec stopListening w) = exec stopListening w.
Proof.
  destruct w as [[id l v s] [cv ac ms an gn] [st cx gs fr nh sf co] pend].
  unfold stopListening. m_unfold.
  destruct ms, ac, an;
    cbv [on_state on_refs on_platform set_listening set_frames set_contexts set_streams
         set_audioContextRef set_mediaStreamRef state refs platform pending
         frames streams contexts gains next_handle surface console
         audioContextRef mediaStreamRef animationRef gainNodeRef canvasRef
         Nat.eqb snd];
    rewrite ?cancel_twice; reflexivity.
Qed.

(** * The device list *)

Lemma audioInputs_ids (allDevices : list MediaDeviceInfo) :
  map deviceId (audioInputs allDevices)
  = map info_deviceId (List.filter is_audioinput allDevices).
Proof. unfold audioInputs. rewrite map_map. reflexivity. Qed.

Lemma audioInputs_labelled (allDevices : list MediaDeviceInfo) :
  Forall (fun d => label d <> "") (audioInputs allDevices).
Proof.
  unfold audioInputs. apply List.Forall_map, List.Forall_forall. intros info _. cbn.
  destruct (String.eqb_spec (info_label info) ""); [discriminate | assumption].
Qed.

(** What [loadDevices] leaves when neither of its two calls fails. *)
Lemma loadDevices_fields (o : Outcome) (allDevices : list MediaDeviceInfo) (h : Home) :
  raises o GetUserMedia = false ->
  devices (loadDevices o (Some allDevices) h) = audioInputs allDevices
  /\ state (world (loadDevices o (Some allDevices) h))
     = match audioInputs allDevices with
       | [] => state (world h)
       | first :: _ => set_selectedDeviceId (deviceId first) (state (world h))
       end
  /\ refs (world (loadDevices o (Some allDevices) h)) = refs (world h)
  /\ pending (world (loadDevices o (Some allDevices) h)) = pending (world h)
  /\ console (platform (world (loadDevices o (Some allDevices) h)))
     = console (platform (world h))
  /\ frames (platform (world (loadDevices o (Some allDevices) h)))
     = frames (platform (world h)).
Proof.
  intros Hgum. unfold loadDevices. m_unfold. rewrite Hgum. cbn.
  destruct (audioInputs allDevices); repeat split.
Qed.

Lemma audioInputs_entries (allDevices : list MediaDeviceInfo) :
  Forall2 (fun d info =>
             deviceId d = info_deviceId info
             /\ (info_label info <> "" -> label d = info_label info)
             /\ (info_label info = "" -> label d = ("Microfone " ++ info_deviceId info)%string))
          (audioInputs allDevices) (List.filter is_audioinput allDevices).
Proof.
  unfold audioInputs.
  induction (List.filter is_audioinput allDevices) as [|info rest IH]; cbn;
    constructor; [|exact IH].
  cbn. destruct (String.eqb_spec (info_label info) "") as [He|Hne];
    repeat split; congruence.
Qed.

(** X16: When [getUserMedia] and [enumerateDevices] both answer, [devices] holds
    one entry for each audio input among the enumerated devices, in their
    order: the entry has the id of the device, and its label when that label
    is not empty, or else ["Microfone "] followed by the id; so no entry has
    an empty label.  The first of them becomes the selected device, and when
    there is none the selection is left as it was.  Nothing is written to
    the console. *)
Theorem loadDevices_lists_inputs (o : Outcome) (allDevices : list MediaDeviceInfo)
    (h : Home) :
  raises o GetUserMedia = false ->
  Forall2 (fun d info =>
             deviceId d = info_deviceId info
             /\ (info_label info <> "" -> label d = info_label info)
             /\ (info_label info = "" -> label d = ("Microfone " ++ info_deviceId info)%string))
          (devices (loadDevices o (Some allDevices) h))
          (List.filter is_audioinput allDevices)
  /\ map deviceId (devices (loadDevices o (Some allDevices) h))
     = map info_deviceId (List.filter is_audioinput allDevices)
  /\ Forall (fun d => label d <> "") (devices (loadDevices o (Some allDevices) h))
  /\ selectedDeviceId (state (world (loadDevices o (Some allDevices) h)))
     = hd (selectedDeviceId (state (world h)))
          (map info_deviceId (List.filter is_audioinput allDevices))
  /\ console (platform (world (loadDevices o (Some allDevices) h)))
     = console (platform (world h)).
Proof.
  intros Hgum.
  destruct (loadDevices_fields o allDevices h Hgum) as (Hd & Hst & _ & _ & Hco & _).
  rewrite Hd, Hst, Hco, <- audioInputs_ids.
  split; [apply audioInputs_entries|].
  split; [reflexivity|]. split; [apply audioInputs_labelled|]. split; [|reflexivity].
  destruct (audioInputs allDevices); reflexivity.
Qed.

Lemma loadDevices_lists_inputs_witness :
  Forall2 (fun d info =>
             deviceId d = info_deviceId info
             /\ (info_label info <> "" -> label d = info_label info)
             /\ (info_label info = "" -> label d = ("Microfone " ++ info_deviceId info)%string))
          (devices (loadDevices granted_silence
                      (Some [ {| info_deviceId := "cam"; info_kind := videoinput;
                                 info_label := "Camera" |};
                              {| info_deviceId := "mic"; info_kind := audioinput;
                                 info_label := "" |};
                              {| info_deviceId := "usb"; info_kind := audioinput;
                                 info_label := "USB microphone" |} ])
                      mounted))
          [ {| info_deviceId := "mic"; info_kind := audioinput; info_label := "" |};
            {| info_deviceId := "usb"; info_kind := audioinput;
               info_label := "USB microphone" |} ].
Proof.
  apply (loadDevices_lists_inputs granted_silence
           [ {| info_deviceId := "cam"; info_kind := videoinput; info_label := "Camera" |};
             {| info_deviceId := "mic"; info_kind := audioinput; info_label := "" |};
             {| info_deviceId := "usb"; info_kind := audioinput;
                info_label := "USB microphone" |} ]
           mounted).
  reflexivity.
Defined.

(** The list of the example above, spelled out. *)
Example loadDevices_labels :
  devices (loadDevices granted_silence
             (Some [ {| info_deviceId := "cam"; info_kind := videoinput;
                        info_label := "Camera" |};
                     {| info_deviceId := "mic"; info_kind := audioinput;
                        info_label := "" |};
                     {| info_deviceId := "usb"; info_kind := audioinput;
                        info_label := "USB microphone" |} ])
             mounted)
  = [ {| deviceId := "mic"; label := "Microfone mic" |};
      {| deviceId := "usb"; label := "USB microphone" |} ].
Proof. reflexivity. Qed.

(** X17: When [getUserMedia] rejects, or [enumerateDevices] does, [loadDevices]
    writes one diagnostic to the console and leaves the device list, the
    selection and every other hook and handle of the component as they
    were. *)
Theorem loadDevices_failure (o : Outcome) (enumerated : option (list MediaDeviceInfo))
    (h : Home) :
  raises o GetUserMedia = true \/ enumerated = None ->
  devices (loadDevices o enumerated h) = devices h
  /\ state (world (loadDevices o enumerated h)) = state (world h)
  /\ refs (world (loadDevices o enumerated h)) = refs (world h)
  /\ pending (world (loadDevices o enumerated h)) = pending (world h)
  /\ console (platform (world (loadDevices o enumerated h)))
     = console (platform (world h)) ++ ["Erro ao acessar microfones:"].
Proof.
  intros Hfail. unfold loadDevices. m_unfold.
  destruct (raises o GetUserMedia); [repeat split|].
  destruct Hfail as [Hgum | ->]; [discriminate|]. repeat split.
Qed.

Lemma loadDevices_failure_witness :
  console (platform (world (loadDevices permission_denied None mounted)))
  = ["Erro ao acessar microfones:"].
Proof.
  apply (loadDevices_failure permission_denied None mounted). left. reflexivity.
Defined.

(** X18: The stream that [loadDevices] obtains from [getUserMedia] is bound to no
    name and never stopped: when it has a track, it stays live, out of reach
    of the handles of the session, through whatever events follow, whether or
    not [enumerateDevices] answers. *)
Theorem loadDevices_keeps_stream (o : Outcome) (enumerated : option (list MediaDeviceInfo))
    (h : Home) (es : list Event) :
  raises o GetUserMedia = false -> (0 < granted o)%nat ->
  mediaStreamRef (refs (world h)) <> Some (next_handle (platform (world h))) ->
  leaked (next_handle (platform (world h)))
         (run (world (loadDevices o enumerated h)) es).
Proof.
  intros Hgum Hgranted Hfresh. apply leaked_run.
  assert (Live ∈ replicate (granted o) Live) as Hlive.
  { destruct (granted o); [lia|]. apply list_elem_of_here. }
  destruct h as [ds [[id l v s] [cv ac ms an gn] [st cx gs fr nh sf co] pend]].
  cbn in Hfresh. unfold leaked, stream_live, loadDevices. m_unfold. rewrite Hgum.
  destruct enumerated as [allDevices|]; [destruct (audioInputs allDevices)|]; cbn;
    (split; [eexists; split; [apply lookup_insert_eq | exact Hlive]
            | split; [exact Hfresh | lia]]).
Qed.

Lemma loadDevices_keeps_stream_witness :
  leaked 1 (run (world (loadDevices granted_silence (Some []) mounted))
                [Click; Settle granted_silence; Click]).
Proof.
  apply (loadDevices_keeps_stream granted_silence (Some []) mounted
           [Click; Settle granted_silence; Click]).
  - reflexivity.
  - cbn. lia.
  - discriminate.
Defined.

(** X19: A start after [loadDevices] asks for the first audio input that was
    listed, as an exact constraint; when no audio input was listed, or the
    first has an empty id, and nothing was selected before, it asks for no
    device in particular. *)
Theorem start_after_load (o o' : Outcome) (allDevices : list MediaDeviceInfo) (h : Home) :
  raises o GetUserMedia = false -> succeeds o' ->
  listening (state (world h)) = false -> pending (world h) = [] ->
  selectedDeviceId (state (world h)) = "" ->
  exists s,
    mediaStreamRef (refs (run (world (loadDevices o (Some allDevices) h))
                              [Click; Settle o']))
    = Some s
    /\ constraint <$> streams (platform (run (world (loadDevices o (Some allDevices) h))
                                             [Click; Settle o'])) !! s
       = Some match map info_deviceId (List.filter is_audioinput allDevices) with
              | [] => None
              | id :: _ => if String.eqb id "" then None else Some id
              end.
Proof.
  intros Hgum Hs Hl Hp Hsel.
  destruct (loadDevices_fields o allDevices h Hgum) as (_ & Hst & _ & Hpend & _).
  assert (listening (state (world (loadDevices o (Some allDevices) h))) = false) as Hl'.
  { rewrite Hst. destruct (audioInputs allDevices); exact Hl. }
  rewrite click_settle by (rewrite ?Hpend; assumption).
  destruct (start_fields (state (world (loadDevices o (Some allDevices) h))) o'
              (world (loadDevices o (Some allDevices) h)) Hs)
    as (_ & _ & _ & Hms & _ & _ & _ & Hstreams & _).
  eexists. split; [exact Hms|]. rewrite Hstreams, lookup_insert_eq. cbn.
  rewrite Hst, <- audioInputs_ids.
  destruct (audioInputs allDevices) as [|first rest]; cbn; [rewrite Hsel|]; reflexivity.
Qed.

Lemma start_after_load_witness :
  exists s,
    mediaStreamRef (refs (run (world (loadDevices granted_silence (Some []) mounted))
                              [Click; Settle granted_silence]))
    = Some s
    /\ constraint <$> streams (platform (run (world (loadDevices granted_silence
                                                       (Some []) mounted))
                                             [Click; Settle granted_silence])) !! s
       = Some None.
Proof.
  apply (start_after_load granted_silence granted_silence [] mounted); try reflexivity.
  intros c. reflexivity.
Defined.

(** * The capture session of the earlier revision *)

Ltac v1_unfold :=
  unfold HomeV1Session.startListening, HomeV1Session.startListening_try,
    HomeV1Session.draw.

Lemma v1_start_try_throw (env : State) (o : Outcome) (w w' : World) (e : string) :
  HomeV1Session.startListening_try env o w = (Throw e, w') ->
  state w' = state w /\ refs w' = refs w
  /\ frames (platform w') = frames (platform w)
  /\ gains (platform w') = gains (platform w)
  /\ console (platform w') = console (platform w).
Proof.
  destruct w as [[id l v s] [cv ac ms an gn] [st cx gs fr nh sf co] pend].
  v1_unfold. m_unfold.
  repeat lazymatch goal with
  | |- context [if raises o ?c then _ else _] =>
      destruct (raises o c) eqn:?; [ intros [= <- <-]; cbn; repeat split | ]
  end.
  destruct cv; cbn -[HomeV1.draw_path replicate fftSize getByteTimeDomainData];
    discriminate.
Qed.

(** X20: In the earlier revision a start that fails, at whatever call, is caught
    and logged and leaves every hook and every handle of the component as it
    was: that revision stores nothing before its last three statements. *)
Theorem v1_start_failure (env : State) (o : Outcome) (w : World) (e : string) :
  fst (HomeV1Session.startListening_try env o w) = Throw e ->
  fst (HomeV1Session.startListening env o w) = Val tt
  /\ state (exec (HomeV1Session.startListening env o) w) = state w
  /\ refs (exec (HomeV1Session.startListening env o) w) = refs w
  /\ frames (platform (exec (HomeV1Session.startListening env o) w))
     = frames (platform w)
  /\ console (platform (exec (HomeV1Session.startListening env o) w))
     = console (platform w) ++ ["Erro ao iniciar escuta:"].
Proof.
  unfold HomeV1Session.startListening, try_catch, exec.
  destruct (HomeV1Session.startListening_try env o w) as [[a|e'] w'] eqn:Htry;
    [discriminate|].
  intros _. apply v1_start_try_throw in Htry as (Hst & Hrefs & Hfr & _ & Hco).
  cbn. rewrite Hst, Hrefs, Hfr, Hco. repeat split.
Qed.

Lemma v1_start_failure_witness :
  refs (exec (HomeV1Session.startListening (state init) context_raises) init)
  = refs init.
Proof.
  apply (v1_start_failure (state init) context_raises init "DOMException").
  reflexivity.
Defined.

(** The callback of the earlier revision is the current one at the constant
    sensitivity, so frames of its sessions are run by [run_frame] as they
    are. *)
Lemma v1_draw (self : DrawClosure) (samples : list Z) (w : World) :
  dc_sensitivity self = HomeV1.smoothness ->
  HomeV1Session.draw self samples w = draw self samples w.
Proof.
  intros Hs. unfold HomeV1Session.draw, draw. rewrite Hs.
  destruct (dc_canvas self); [|reflexivity]. rewrite draw_path_v1. reflexivity.
Qed.

Lemma v1_start_fields (env : State) (o : Outcome) (w : World) :
  succeeds o ->
  fst (HomeV1Session.startListening env o w) = Val tt
  /\ state (exec (HomeV1Session.startListening env o) w) = set_listening true (state w)
  /\ mediaStreamRef (refs (exec (HomeV1Session.startListening env o) w))
     = Some (next_handle (platform w))
  /\ audioContextRef (refs (exec (HomeV1Session.startListening env o) w))
     = Some (S (next_handle (platform w)))
  /\ gainNodeRef (refs (exec (HomeV1Session.startListening env o) w))
     = gainNodeRef (refs w)
  /\ streams (platform (exec (HomeV1Session.startListening env o) w))
     = <[next_handle (platform w) :=
           {| constraint := if String.eqb (selectedDeviceId env) "" then None
                            else Some (selectedDeviceId env);
              tracks := replicate (granted o) Live |}]> (streams (platform w))
  /\ contexts (platform (exec (HomeV1Session.startListening env o) w))
     = <[S (next_handle (platform w)) :=
           {| ac_state := Running; ac_source := Some (next_handle (platform w));
              ac_gain := None;
              ac_edges := [(Source, Destination); (Source, Analyser)] |}]>
         (contexts (platform w))
  /\ gains (platform (exec (HomeV1Session.startListening env o) w)) = gains (platform w)
  /\ match canvasRef (refs w) with
     | Some canvas =>
         frames (platform (exec (HomeV1Session.startListening env o) w))
         = frames (platform w)
           ++ [(S (S (next_handle (platform w))),
                {| dc_canvas := Some canvas;
                   dc_analyser := S (next_handle (platform w));
                   dc_dataArray :=
                     getByteTimeDomainData (time_domain o) (replicate fftSize 0%Z);
                   dc_sensitivity := HomeV1.smoothness |})]
         /\ animationRef (refs (exec (HomeV1Session.startListening env o) w))
            = S (S (next_handle (platform w)))
     | None =>
         frames (platform (exec (HomeV1Session.startListening env o) w))
         = frames (platform w)
         /\ animationRef (refs (exec (HomeV1Session.startListening env o) w))
            = animationRef (refs w)
     end.
Proof.
  intros Hs. unfold exec.
  destruct (HomeV1Session.startListening env o w) as [r w'] eqn:Hrun. revert Hrun.
  destruct w as [[id l v s] [cv ac ms an gn] [st cx gs fr nh sf co] pend].
  v1_unfold. m_unfold. rewrite !Hs.
  destruct cv as [canvas|];
    cbn -[HomeV1.draw_path replicate fftSize getByteTimeDomainData];
    intros [= <- <-];
    cbn -[HomeV1.draw_path replicate fftSize getByteTimeDomainData];
    rewrite !alter_inserted; repeat split.
Qed.

(** X21: A start of the earlier revision in which no call raises leaves the
    component listening to a live stream that feeds a running audio context
    in which the source is connected straight to the destination and to the
    analyser; there is no gain node in the path, and no gain node and no
    [gainNodeRef] is touched. *)
Theorem v1_start_routes_audio (env : State) (o : Outcome) (w : World) :
  succeeds o ->
  fst (HomeV1Session.startListening env o w) = Val tt
  /\ listening (state (exec (HomeV1Session.startListening env o) w)) = true
  /\ (exists h c a,
        mediaStreamRef (refs (exec (HomeV1Session.startListening env o) w)) = Some h
        /\ streams (platform (exec (HomeV1Session.startListening env o) w)) !! h
           = Some {| constraint := if String.eqb (selectedDeviceId env) "" then None
                                   else Some (selectedDeviceId env);
                     tracks := replicate (granted o) Live |}
        /\ audioContextRef (refs (exec (HomeV1Session.startListening env o) w)) = Some c
        /\ contexts (platform (exec (HomeV1Session.startListening env o) w)) !! c = Some a
        /\ ac_state a = Running
        /\ ac_source a = Some h
        /\ ac_gain a = None
        /\ ac_edges a = [(Source, Destination); (Source, Analyser)])
  /\ gains (platform (exec (HomeV1Session.startListening env o) w)) = gains (platform w)
  /\ gainNodeRef (refs (exec (HomeV1Session.startListening env o) w))
     = gainNodeRef (refs w).
Proof.
  intros Hs.
  destruct (v1_start_fields env o w Hs)
    as (Hval & Hstate & Hms & Hac & Hgn & Hstreams & Hcontexts & Hgains & _).
  split; [exact Hval|]. split; [rewrite Hstate; reflexivity|].
  split; [|split; assumption].
  eexists _, _, _. rewrite Hms, Hac, Hstreams, Hcontexts, !lookup_insert_eq.
  repeat split.
Qed.

Lemma v1_start_routes_audio_witness :
  gains (platform (exec (HomeV1Session.startListening (state init) granted_silence) init))
  = gains (platform init).
Proof.
  apply (v1_start_routes_audio (state init) granted_silence init). intros c. reflexivity.
Defined.

(** X22: Every frame of a session of the earlier revision is drawn by the loop of
    that revision, with its constant smoothing, from the bytes of that
    frame, whatever events come between the start and the frame. *)
Theorem v1_session_frame (env : State) (o : Outcome) (w : World) (canvas : Canvas)
    (es : list Event) (samples : list Z) :
  succeeds o -> frames (platform w) = [] -> canvasRef (refs w) = Some canvas ->
  Forall (fun e => quiet e = true) es ->
  length samples = fftSize ->
  surface (platform (run (exec (HomeV1Session.startListening env o) w)
                         (es ++ [AnimationFrame samples])))
  = HomeV1.draw_path canvas samples.
Proof.
  intros Hs Hfr Hcv Hes Hlen. rewrite run_app, draw_path_v1.
  change (run (run (exec (HomeV1Session.startListening env o) w) es)
              [AnimationFrame samples])
    with (step (run (exec (HomeV1Session.startListening env o) w) es)
               (AnimationFrame samples)).
  apply loop_of_frame; [|exact Hlen]. apply loop_of_run; [|exact Hes].
  destruct (v1_start_fields env o w Hs) as (_ & _ & _ & _ & _ & _ & _ & _ & Hloop).
  rewrite Hcv in Hloop. destruct Hloop as (Hq & Han).
  unfold loop_of. rewrite Hq, Han, Hfr.
  eexists. split; [reflexivity|]. split; [reflexivity|]. split; [reflexivity|].
  cbn [dc_dataArray]. rewrite getByteTimeDomainData_length. apply length_replicate.
Qed.

Lemma v1_session_frame_witness :
  surface (platform (run (exec (HomeV1Session.startListening (state init) granted_silence)
                               init)
                         ([AnimationFrame square_wave] ++ [AnimationFrame square_wave])))
  = HomeV1.draw_path home_canvas square_wave.
Proof.
  apply (v1_session_frame (state init) granted_silence init home_canvas
           [AnimationFrame square_wave] square_wave); try reflexivity.
  - intros c. reflexivity.
  - repeat constructor.
Defined.
